(** * Electron client: ElectronApplication over the Waiter and the timeout resolver

    A shallow embedding of the client-side [ElectronApplication] class
    (window set, [firstWindow], [close], [waitForEvent]) together with the
    two collaborators it is built on, the one-shot [Waiter] and the
    [TimeoutSettings] resolver.

    Conventions of the embedding:
    - a JavaScript number of milliseconds is a [Z]; elapsed time is an [N];
    - a remote object (the application, a page) is identified by its guid,
      a [string]; reference equality of objects is equality of guids;
    - the [Set<Page>] of windows is a duplicate-free list in insertion
      order, which is the iteration order of a JavaScript [Set];
    - an [async] method is a function of the inputs that reach the client
      while the call is in flight, returning a settled promise
      ([Fulfilled] / [Failed]) or [Pending];
    - [emit] returns the notifications it raises, in order. *)

From Stdlib Require Import List Bool Arith ZArith NArith Lia String Ascii.
From Stdlib Require Import DecimalString.
From Stdlib Require Import Permutation.
Import ListNotations.

Local Open Scope string_scope.
Local Open Scope list_scope.
Local Open Scope Z_scope.

(** ** Basic data *)

Definition Guid := string.

(** A page is a remote object; two [Page] references are the same object
    exactly when their guids agree. *)
Definition Page := Guid.

(** The payload of a console notification as it comes off the channel. *)
Definition ConsoleEvent := string.

(** What an event carries to its listeners. *)
Inductive Payload : Type :=
| PayloadNone                              (* emit(event) with no argument *)
| PayloadPage (page : Page)
| PayloadConsole (message : ConsoleEvent).

(** ** Errors *)

Module Errors.

(** The taxonomy of failures a caller can observe. *)
Inductive Error : Type :=
| ProtocolViolation (message : string)
| TargetClosedError (cause : option string)
| TimeoutError (bound : Z) (message : string)
| SerializationError (message : string)
| GenericError (message : string).

(** Modelled from the spec: [isTargetClosedError] of errors.ts, which is
    not part of the sources at hand.  It recognises exactly the
    [TargetClosedError] kind of the taxonomy. *)
Definition isTargetClosedError (e : Error) : bool :=
  match e with
  | TargetClosedError _ => true
  | _ => false
  end.

End Errors.
Import Errors.

(** ** Promises *)

(** The state of the promise returned by an [async] method once a given
    prefix of the inputs has been processed. *)
Inductive Async (A : Type) : Type :=
| Fulfilled (value : A)
| Failed (error : Error)
| Pending.

Arguments Fulfilled {A} value.
Arguments Failed {A} error.
Arguments Pending {A}.

Definition await {A B : Type} (p : Async A) (k : A -> Async B) : Async B :=
  match p with
  | Fulfilled v => k v
  | Failed e => Failed e
  | Pending => Pending
  end.

Definition try_catch {A : Type} (body : Async A) (handler : Error -> Async A)
  : Async A :=
  match body with
  | Failed e => handler e
  | settled => settled
  end.

(** ** Timeout resolver *)

Module TimeoutSettings.

(** Modelled from the spec: the [Platform] handed to the resolver's
    constructor (platform.ts is absent).  Only what section 4.5 reads from it
    is kept: the session default that a new object inherits, and the
    process-wide default, either of which may be unset. *)
Record Platform : Type := {
  sessionDefaultTimeout : option Z;
  processDefaultTimeout : option Z
}.

(** Modelled from the spec: the state of a [TimeoutSettings] object
    (timeoutSettings.ts is absent): the per-object default, settable, and
    the platform it was created for. *)
Record t : Type := {
  _platform : Platform;
  _defaultTimeout : option Z
}.

(** Modelled from the spec: [new TimeoutSettings(platform)].  The
    per-object default is inherited from the session default at object
    creation. *)
Definition new (platform : Platform) : t :=
  {| _platform := platform;
     _defaultTimeout := sessionDefaultTimeout platform |}.

(** Modelled from the spec: the setter of the per-object default. *)
Definition setDefaultTimeout (timeout : option Z) (s : t) : t :=
  {| _platform := _platform s; _defaultTimeout := timeout |}.

(** The [{ timeout?: number }] part of a call's options. *)
Record Options : Type := { timeout_opt : option Z }.

Definition noOptions : Options := {| timeout_opt := None |}.

(** Modelled from the spec: [TimeoutSettings.timeout(options)], the
    effective timeout of section 4.5.  Precedence: the per-call override, else
    the per-object default, else the process-wide default, where an unset
    process-wide default is 0.  The result 0 stands for no timeout; a
    level that is present with value 0 is returned as it is, without
    looking at the levels below it. *)
Definition timeout (s : t) (options : Options) : Z :=
  match timeout_opt options with
  | Some t => t
  | None =>
      match _defaultTimeout s with
      | Some t => t
      | None =>
          match processDefaultTimeout (_platform s) with
          | Some t => t
          | None => 0
          end
      end
  end.

End TimeoutSettings.

(** ** Waiter *)

Module Waiter.

(** Modelled from the spec: the [Waiter] class (waiter.ts is absent).
    Its attributes are those of the data model: a set of resolve bindings (object, event
    name, optional predicate), a set of reject bindings (object, event
    name, exception factory), an optional deadline, and a
    finalized/outstanding flag. *)
Record ResolveBinding : Type := {
  resolve_emitter : Guid;
  resolve_event : string;
  resolve_predicate : option (Payload -> bool)
}.

Record RejectBinding : Type := {
  reject_emitter : Guid;
  reject_event : string;
  reject_factory : unit -> Error
}.

Record Deadline : Type := {
  deadline_bound : Z;          (* milliseconds from the waiter's creation *)
  deadline_message : string
}.

Inductive Outcome : Type :=
| Resolved (payload : Payload)
| Rejected (error : Error).

Inductive Status : Type :=
| Outstanding
| Settled (outcome : Outcome) (at_ms : N)
| Abandoned.

Record t : Type := {
  resolveBindings : list ResolveBinding;
  rejectBindings : list RejectBinding;
  deadline : option Deadline;
  elapsed : N;                 (* milliseconds since creation *)
  status : Status;
  disposeCalls : nat           (* how many times [dispose] was invoked *)
}.

(** What reaches a waiter: an event emitted by some object, or the
    passing of time. *)
Inductive Input : Type :=
| Emit (emitter : Guid) (event : string) (payload : Payload)
| Tick (dt : N).

(** Modelled from the spec: [Waiter.createForEvent(owner, event)]: a new
    outstanding waiter with no binding and no deadline yet. *)
Definition createForEvent (owner : Guid) (event : string) : t :=
  {| resolveBindings := [];
     rejectBindings := [];
     deadline := None;
     elapsed := 0%N;
     status := Outstanding;
     disposeCalls := 0%nat |}.

(** Modelled from the spec: [rejectOnTimeout(timeout, message)] sets the
    deadline.  A timeout of 0 means no timeout (section 4.5), so no deadline is
    set for it. *)
Definition rejectOnTimeout (timeout : Z) (message : string) (w : t) : t :=
  if timeout =? 0 then w
  else
    {| resolveBindings := resolveBindings w;
       rejectBindings := rejectBindings w;
       deadline := Some {| deadline_bound := timeout;
                           deadline_message := message |};
       elapsed := elapsed w;
       status := status w;
       disposeCalls := disposeCalls w |}.

(** Modelled from the spec: [rejectOnEvent(emitter, event, factory)] adds
    a reject binding; the waiter is subscribed to the event from then on. *)
Definition rejectOnEvent (emitter : Guid) (event : string)
    (factory : unit -> Error) (w : t) : t :=
  {| resolveBindings := resolveBindings w;
     rejectBindings :=
       rejectBindings w ++
       [{| reject_emitter := emitter; reject_event := event;
           reject_factory := factory |}];
     deadline := deadline w;
     elapsed := elapsed w;
     status := status w;
     disposeCalls := disposeCalls w |}.

(** Modelled from the spec: [waitForEvent(emitter, event, predicate)]
    adds the resolve binding the caller then awaits. *)
Definition waitForEvent (emitter : Guid) (event : string)
    (predicate : option (Payload -> bool)) (w : t) : t :=
  {| resolveBindings :=
       resolveBindings w ++
       [{| resolve_emitter := emitter; resolve_event := event;
           resolve_predicate := predicate |}];
     rejectBindings := rejectBindings w;
     deadline := deadline w;
     elapsed := elapsed w;
     status := status w;
     disposeCalls := disposeCalls w |}.

(** The subscriptions a waiter currently holds, one per binding. *)
Definition subscriptions (w : t) : list (Guid * string) :=
  map (fun b => (resolve_emitter b, resolve_event b)) (resolveBindings w) ++
  map (fun b => (reject_emitter b, reject_event b)) (rejectBindings w).

(** The waiter's share of the listener count of [(emitter, event)]. *)
Definition refCount (w : t) (emitter : Guid) (event : string) : nat :=
  List.length
    (filter (fun s => String.eqb (fst s) emitter && String.eqb (snd s) event)
            (subscriptions w)).

(** Tearing everything down: every subscription and the timer. *)
Definition teardown (s : Status) (w : t) : t :=
  {| resolveBindings := [];
     rejectBindings := [];
     deadline := None;
     elapsed := elapsed w;
     status := s;
     disposeCalls := disposeCalls w |}.

(** Modelled from the spec: the bare [dispose()], for a caller that stops
    waiting.  It unsubscribes at once; an outcome already reached stays. *)
Definition dispose (w : t) : t :=
  let w' := teardown (match status w with
                      | Outstanding => Abandoned
                      | s => s
                      end) w in
  {| resolveBindings := resolveBindings w';
     rejectBindings := rejectBindings w';
     deadline := deadline w';
     elapsed := elapsed w';
     status := status w';
     disposeCalls := S (disposeCalls w) |}.

Definition resolveMatches (emitter : Guid) (event : string)
    (payload : Payload) (b : ResolveBinding) : bool :=
  String.eqb (resolve_emitter b) emitter &&
  String.eqb (resolve_event b) event &&
  match resolve_predicate b with
  | Some p => p payload
  | None => true
  end.

Definition rejectMatches (emitter : Guid) (event : string)
    (b : RejectBinding) : bool :=
  String.eqb (reject_emitter b) emitter &&
  String.eqb (reject_event b) event.

(** Which outcome, if any, an input produces on an outstanding waiter
    with the given bindings.  A resolve binding fires when its predicate,
    if any, accepts the payload; a reject binding fires on the event
    alone.  The spec does not order a resolve and a reject binding bound
    to one and the same emission; the resolve binding is looked at
    first here. *)
Definition fires (w : t) (i : Input) : option Outcome :=
  match i with
  | Emit emitter event payload =>
      if existsb (resolveMatches emitter event payload) (resolveBindings w)
      then Some (Resolved payload)
      else
        match find (rejectMatches emitter event) (rejectBindings w) with
        | Some b => Some (Rejected (reject_factory b tt))
        | None => None
        end
  | Tick dt =>
      match deadline w with
      | Some d =>
          if deadline_bound d <=? Z.of_N (elapsed w + dt)
          then Some (Rejected (TimeoutError (deadline_bound d)
                                            (deadline_message d)))
          else None
      | None => None
      end
  end.

Definition advance (i : Input) (w : t) : N :=
  match i with
  | Emit _ _ _ => elapsed w
  | Tick dt => (elapsed w + dt)%N
  end.

(** Modelled from the spec: one input reaching the waiter.  The result is
    the waiter afterwards and the outcome delivered to the awaiting
    caller by this very input, if any.  A waiter that is no longer
    outstanding ignores every input.  The input that fires settles the
    waiter and tears all bindings down in the same step. *)
Definition step (i : Input) (w : t) : t * option Outcome :=
  match status w with
  | Outstanding =>
      let now := advance i w in
      match fires w i with
      | Some o =>
          (teardown (Settled o now)
             {| resolveBindings := resolveBindings w;
                rejectBindings := rejectBindings w;
                deadline := deadline w;
                elapsed := now;
                status := status w;
                disposeCalls := disposeCalls w |},
           Some o)
      | None =>
          ({| resolveBindings := resolveBindings w;
              rejectBindings := rejectBindings w;
              deadline := deadline w;
              elapsed := now;
              status := Outstanding;
              disposeCalls := disposeCalls w |},
           None)
      end
  | _ => (w, None)
  end.

(** The waiter after a sequence of inputs. *)
Fixpoint run (w : t) (trace : list Input) : t :=
  match trace with
  | [] => w
  | i :: rest => run (fst (step i w)) rest
  end.

(** Every outcome delivered along a sequence of inputs, in order. *)
Fixpoint deliveries (w : t) (trace : list Input) : list Outcome :=
  match trace with
  | [] => []
  | i :: rest =>
      match snd (step i w) with
      | Some o => o :: deliveries (fst (step i w)) rest
      | None => deliveries (fst (step i w)) rest
      end
  end.

Definition outcome (w : t) : option Outcome :=
  match status w with
  | Settled o _ => Some o
  | _ => None
  end.

Definition settledAt (w : t) : option N :=
  match status w with
  | Settled _ at_ms => Some at_ms
  | _ => None
  end.

Definition total (trace : list Input) : N :=
  fold_right (fun i acc => match i with
                           | Tick dt => (dt + acc)%N
                           | Emit _ _ _ => acc
                           end) 0%N trace.

(** An input that makes no binding fire: time passing, or an emission
    no binding of [w] is bound to (or whose predicate rejects it). *)
Definition silent (w : t) (i : Input) : bool :=
  match i with
  | Emit emitter event payload =>
      negb (existsb (resolveMatches emitter event payload)
                    (resolveBindings w)) &&
      match find (rejectMatches emitter event) (rejectBindings w) with
      | Some _ => false
      | None => true
      end
  | Tick _ => true
  end.

End Waiter.

(** ** Event names *)

Module Events.

(** The event-name constants [Events.ElectronApplication.*] come from
    events.ts, which is absent; the application is modelled for any
    value of them. *)
Record Table : Type := {
  ElectronApplication_Close : string;
  ElectronApplication_Console : string;
  ElectronApplication_Window : string
}.

End Events.

(** ** A JavaScript [Set] of pages *)

Module PageSet.

(** Insertion-ordered, duplicate-free: [add] of a member changes nothing,
    [add] of a new element puts it last, iteration starts at the oldest
    element still present. *)
Definition t := list Page.

Definition empty : t := [].

Definition has (page : Page) (s : t) : bool :=
  existsb (String.eqb page) s.

Definition add (page : Page) (s : t) : t :=
  if has page s then s else s ++ [page].

Definition delete (page : Page) (s : t) : t :=
  filter (fun q => negb (String.eqb page q)) s.

Definition size (s : t) : nat := List.length s.

(** [new Set(pages)] *)
Definition of_list (pages : list Page) : t :=
  fold_left (fun s page => add page s) pages empty.

(** [s.values().next().value] *)
Definition first (s : t) : option Page := hd_error s.

(** [[...s]] *)
Definition spread (s : t) : list Page := s.

End PageSet.

(** ** ElectronApplication *)

Module ElectronApplication.

(** The part of the browser context the application reads when it is
    constructed: the pages the context already has. *)
Record BrowserContext : Type := {
  context_guid : Guid;
  _pages : list Page
}.

Record t : Type := {
  (* inherited from ChannelOwner *)
  _guid : Guid;
  _platform : TimeoutSettings.Platform;
  _sessionTornDown : bool;
  _eventToSubscriptionMapping : list (string * string);
  (* own fields *)
  _context : BrowserContext;
  _windows : PageSet.t;
  _timeoutSettings : TimeoutSettings.t;
  (* pages on which a [page.once(Events.Page.Close, ...)] handler of this
     application is still registered, one entry per registration *)
  _pageCloseOnce : list Page
}.

(** An event raised on the application: its name and what it carries. *)
Definition Emission : Type := string * Payload.

Definition with_windows (windows : PageSet.t) (this : t) : t :=
  {| _guid := _guid this;
     _platform := _platform this;
     _sessionTornDown := _sessionTornDown this;
     _eventToSubscriptionMapping := _eventToSubscriptionMapping this;
     _context := _context this;
     _windows := windows;
     _timeoutSettings := _timeoutSettings this;
     _pageCloseOnce := _pageCloseOnce this |}.

Definition with_pageCloseOnce (pending : list Page) (this : t) : t :=
  {| _guid := _guid this;
     _platform := _platform this;
     _sessionTornDown := _sessionTornDown this;
     _eventToSubscriptionMapping := _eventToSubscriptionMapping this;
     _context := _context this;
     _windows := _windows this;
     _timeoutSettings := _timeoutSettings this;
     _pageCloseOnce := pending |}.

Definition _setEventToSubscriptionMapping (mapping : list (string * string))
    (this : t) : t :=
  {| _guid := _guid this;
     _platform := _platform this;
     _sessionTornDown := _sessionTornDown this;
     _eventToSubscriptionMapping := mapping;
     _context := _context this;
     _windows := _windows this;
     _timeoutSettings := _timeoutSettings this;
     _pageCloseOnce := _pageCloseOnce this |}.

(** [this.emit(event, payload)] *)
Definition emit (event : string) (payload : Payload) (this : t)
  : t * list Emission :=
  (this, [(event, payload)]).

(** What the client receives from the outside while it runs. *)
Inductive Input : Type :=
| ContextPage (page : Page)          (* the context emits its page event *)
| PageClose (page : Page)            (* a page emits its close event *)
| ChannelClose                       (* 'close' on the channel *)
| ChannelConsole (event : ConsoleEvent)  (* 'console' on the channel *)
| Elapse (dt : N).                   (* time passes *)

(** The handlers registered with [page.once(Events.Page.Close, ...)]
    that run when [page] closes: each of them deletes the page from the
    window set and is gone afterwards. *)
Fixpoint firePageClose (page : Page) (pending : list Page)
    (windows : PageSet.t) : list Page * PageSet.t :=
  match pending with
  | [] => ([], windows)
  | q :: rest =>
      if String.eqb page q
      then firePageClose page rest (PageSet.delete page windows)
      else
        let '(rest', windows') := firePageClose page rest windows in
        (q :: rest', windows')
  end.

(** The fields no listener of the application writes to. *)
Definition sameIdentity (a b : t) : Prop :=
  _guid b = _guid a /\
  _timeoutSettings b = _timeoutSettings a /\
  _sessionTornDown b = _sessionTornDown a /\
  _platform b = _platform a /\
  _context b = _context a /\
  _eventToSubscriptionMapping b = _eventToSubscriptionMapping a.

Section WithEvents.

Variable Events : Events.Table.

Definition _onPage (page : Page) (this : t) : t * list Emission :=
  let this := with_windows (PageSet.add page (_windows this)) this in
  let '(this, out) :=
    emit (Events.ElectronApplication_Window Events) (PayloadPage page) this in
  let this := with_pageCloseOnce (_pageCloseOnce this ++ [page]) this in
  (this, out).

(** [for (const page of pages) this._onPage(page)] *)
Fixpoint _onPages (pages : list Page) (this : t) : t * list Emission :=
  match pages with
  | [] => (this, [])
  | page :: rest =>
      let '(this, out) := _onPage page this in
      let '(this, out') := _onPages rest this in
      (this, out ++ out')
  end.

Definition constructor (guid : Guid) (platform : TimeoutSettings.Platform)
    (sessionTornDown : bool) (context : BrowserContext)
  : t * list Emission :=
  let this :=
    {| _guid := guid;
       _platform := platform;
       _sessionTornDown := sessionTornDown;
       _eventToSubscriptionMapping := [];
       _context := context;
       _windows := PageSet.empty;
       _timeoutSettings := TimeoutSettings.new platform;
       _pageCloseOnce := [] |} in
  let '(this, out) := _onPages (_pages context) this in
  let this :=
    _setEventToSubscriptionMapping
      [(Events.ElectronApplication_Console Events, "console")] this in
  (this, out).

(** The listeners the constructor and [_onPage] install, run on one
    input. *)
Definition dispatch (i : Input) (this : t) : t * list Emission :=
  match i with
  | ContextPage page => _onPage page this
  | PageClose page =>
      let '(pending, windows) :=
        firePageClose page (_pageCloseOnce this) (_windows this) in
      (with_pageCloseOnce pending (with_windows windows this), [])
  | ChannelClose =>
      emit (Events.ElectronApplication_Close Events) PayloadNone this
  | ChannelConsole event =>
      emit (Events.ElectronApplication_Console Events)
           (PayloadConsole event) this
  | Elapse _ => (this, [])
  end.

(** What a waiter subscribed to the application sees of one input: the
    events the application emits for it, then the time it took. *)
Definition observed (guid : Guid) (i : Input) (out : list Emission)
  : list Waiter.Input :=
  map (fun e => Waiter.Emit guid (fst e) (snd e)) out ++
  match i with
  | Elapse dt => [Waiter.Tick dt]
  | _ => []
  end.

(** The application after a sequence of inputs, with everything it
    emitted and everything a waiter bound to it observed. *)
Fixpoint dispatchAll (inputs : list Input) (this : t)
  : t * list Emission * list Waiter.Input :=
  match inputs with
  | [] => (this, [], [])
  | i :: rest =>
      let '(this1, out) := dispatch i this in
      let '(this2, out', seen') := dispatchAll rest this1 in
      (this2, out ++ out', observed (_guid this) i out ++ seen')
  end.

Definition windows (this : t) : list Page :=
  PageSet.spread (_windows this).

Definition context (this : t) : BrowserContext := _context this.

(** [close()]: [context_close] is the promise of [this._context.close()]. *)
Definition close (context_close : Async unit) : Async unit :=
  try_catch
    (await context_close (fun _ => Fulfilled tt))
    (fun e => if isTargetClosedError e then Fulfilled tt else Failed e).

(** Modelled from the spec: [ChannelOwner._wrapApiCall] (channelOwner.ts
    is absent), the call wrapper of section 4.6: a failure of the wrapped
    operation is handed on as it is, unless the session is already
    torn down, in which case it is normalised to a
    [TargetClosedError]. *)
Definition _wrapApiCall {A : Type} (this : t) (result : Async A) : Async A :=
  match result with
  | Failed e =>
      if _sessionTornDown this
      then if isTargetClosedError e then Failed e
           else Failed (TargetClosedError None)
      else Failed e
  | settled => settled
  end.

(** The second argument of [waitForEvent]: a predicate, or an options
    object. *)
Inductive WaitForEventOptions : Type :=
| IsFunction (predicate : Payload -> bool)
| IsObject (predicate : option (Payload -> bool)) (timeout : option Z).

Definition string_of_number (n : Z) : string :=
  NilZero.string_of_int (Z.to_int n).

Definition doubleQuote : string := String (ascii_of_nat 34) EmptyString.

Definition timeoutMessage (timeout : Z) (event : string) : string :=
  ("Timeout " ++ string_of_number timeout ++
   "ms exceeded while waiting for event " ++
   doubleQuote ++ event ++ doubleQuote)%string.

(** The state of an [async] call: its promise, the application after
    the inputs, and the waiter the call created, if it created one. *)
Record Call : Type := {
  promise : Async Payload;
  application : t;
  waiter : option Waiter.t
}.

(** The waiter [waitForEvent] builds before it awaits. *)
Definition waitForEvent_waiter (this : t) (event : string)
    (optionsOrPredicate : option WaitForEventOptions) : Waiter.t :=
  let optionsOrPredicate :=
    match optionsOrPredicate with
    | Some o => o
    | None => IsObject None None
    end in
  let timeout :=
    TimeoutSettings.timeout (_timeoutSettings this)
      match optionsOrPredicate with
      | IsFunction _ => TimeoutSettings.noOptions
      | IsObject _ t => {| TimeoutSettings.timeout_opt := t |}
      end in
  let predicate :=
    match optionsOrPredicate with
    | IsFunction f => Some f
    | IsObject p _ => p
    end in
  let waiter := Waiter.createForEvent (_guid this) event in
  let waiter :=
    Waiter.rejectOnTimeout timeout (timeoutMessage timeout event) waiter in
  let waiter :=
    if negb (String.eqb event (Events.ElectronApplication_Close Events))
    then Waiter.rejectOnEvent (_guid this)
           (Events.ElectronApplication_Close Events)
           (fun _ => TargetClosedError None) waiter
    else waiter in
  Waiter.waitForEvent (_guid this) event predicate waiter.

(** [waitForEvent(event, optionsOrPredicate)], run against the inputs
    that arrive while the call is in flight. *)
Definition waitForEvent (this : t) (event : string)
    (optionsOrPredicate : option WaitForEventOptions)
    (inputs : list Input) : Call :=
  let waiter := waitForEvent_waiter this event optionsOrPredicate in
  let '(this', _, seen) := dispatchAll inputs this in
  let waiter := Waiter.run waiter seen in
  match Waiter.outcome waiter with
  | Some (Waiter.Resolved result) =>
      (* const result = await ...; waiter.dispose(); return result *)
      {| promise := _wrapApiCall this' (Fulfilled result);
         application := this';
         waiter := Some (Waiter.dispose waiter) |}
  | Some (Waiter.Rejected e) =>
      (* the await throws; the statements after it do not run *)
      {| promise := _wrapApiCall this' (Failed e);
         application := this';
         waiter := Some waiter |}
  | None =>
      {| promise := _wrapApiCall this' Pending;
         application := this';
         waiter := Some waiter |}
  end.

(** [firstWindow(options)] *)
Definition firstWindow (this : t) (options : option TimeoutSettings.Options)
    (inputs : list Input) : Call :=
  if negb (Nat.eqb (PageSet.size (_windows this)) 0)
  then
    match PageSet.first (_windows this) with
    | Some page =>
        {| promise := Fulfilled (PayloadPage page);
           application := fst (fst (dispatchAll inputs this));
           waiter := None |}
    | None =>
        (* unreachable: a set of non-zero size has a first element *)
        {| promise := Fulfilled PayloadNone;
           application := fst (fst (dispatchAll inputs this));
           waiter := None |}
    end
  else
    waitForEvent this "window"
      (match options with
       | Some o => Some (IsObject None (TimeoutSettings.timeout_opt o))
       | None => None
       end)
      inputs.

(** The pages carried by the window events among some emissions. *)
Definition windowEvents (out : list Emission) : list Page :=
  flat_map
    (fun e =>
       if String.eqb (fst e) (Events.ElectronApplication_Window Events)
       then match snd e with
            | PayloadPage page => [page]
            | _ => []
            end
       else [])
    out.

(** How many times [page] leaves the window set along the inputs. *)
Fixpoint removals (page : Page) (inputs : list Input) (this : t) : nat :=
  match inputs with
  | [] => 0%nat
  | i :: rest =>
      let this' := fst (dispatch i this) in
      ((if PageSet.has page (_windows this) &&
           negb (PageSet.has page (_windows this'))
        then 1 else 0) + removals page rest this')%nat
  end.

End WithEvents.

(** The pages the context announces along the inputs, in order. *)
Fixpoint announced (inputs : list Input) : list Page :=
  match inputs with
  | [] => []
  | ContextPage page :: rest => page :: announced rest
  | _ :: rest => announced rest
  end.

(** The pages that emit their close event along the inputs, in order. *)
Fixpoint closed (inputs : list Input) : list Page :=
  match inputs with
  | [] => []
  | PageClose page :: rest => page :: closed rest
  | _ :: rest => closed rest
  end.

(** The life cycle of a page as the context drives it: once a page has
    emitted its close event the context does not announce it (again).
    [alreadyClosed] are the pages closed before the inputs start. *)
Fixpoint closedPagesStayClosed (alreadyClosed : list Page)
    (inputs : list Input) : bool :=
  match inputs with
  | [] => true
  | ContextPage page :: rest =>
      negb (PageSet.has page alreadyClosed) &&
      closedPagesStayClosed alreadyClosed rest
  | PageClose page :: rest =>
      closedPagesStayClosed (page :: alreadyClosed) rest
  | _ :: rest => closedPagesStayClosed alreadyClosed rest
  end.

(** The window set [this] holds for the pages [arrived] so far, of which
    [gone] have closed: the arrived pages that have not closed, in the
    order of their first arrival, each still carrying the close handler
    that will remove it. *)
Definition tracks (this : t) (arrived gone : list Page) : Prop :=
  (forall page, In page (_windows this) -> In page (_pageCloseOnce this)) /\
  _windows this =
    filter (fun page => negb (PageSet.has page gone)) (PageSet.of_list arrived).

(** Whether [page] is still open after the inputs. *)
Definition stillOpen (inputs : list Input) (page : Page) : bool :=
  negb (PageSet.has page (closed inputs)).

End ElectronApplication.

(** ** Network filters (trace viewer) *)

Module NetworkFilters.

Definition ResourceType := string.

Definition resourceTypes : list ResourceType :=
  ["All"; "Fetch"; "HTML"; "JS"; "CSS"; "Font"; "Image"].

Record FilterState : Type := {
  searchValue : string;
  resourceType : ResourceType
}.

Definition defaultFilterState : FilterState :=
  {| searchValue := ""; resourceType := "All" |}.

(** A [Record<string, number>] built by assignment: one entry per key, in
    the order the keys were first assigned. *)
Definition NumberRecord := list (string * Z).

Fixpoint recordGet (key : string) (r : NumberRecord) : option Z :=
  match r with
  | [] => None
  | (k, v) :: rest => if String.eqb k key then Some v else recordGet key rest
  end.

(** [r[key] = value] *)
Fixpoint recordSet (key : string) (value : Z) (r : NumberRecord)
  : NumberRecord :=
  match r with
  | [] => [(key, value)]
  | (k, v) :: rest =>
      if String.eqb k key then (k, value) :: rest
      else (k, v) :: recordSet key value rest
  end.

(** [Object.keys(r)] *)
Definition recordKeys (r : NumberRecord) : list string := map fst r.

(** The component's state cells. *)
Record State : Type := {
  visibleResourceTypes : list ResourceType;
  overflowResourceTypes : list ResourceType;
  elementWidths : NumberRecord;
  tabbedPaneWidth : Z
}.

(** [allResourceTypes = [...resourceTypes]] *)
Definition allResourceTypes : list ResourceType := resourceTypes.

Definition initialState : State :=
  {| visibleResourceTypes := allResourceTypes;
     overflowResourceTypes := [];
     elementWidths := [];
     tabbedPaneWidth := 80 |}.

(** What the component reads from the document: whether the hidden
    measurement element is mounted, the [offsetWidth] the browser gives a
    hidden element of a class with a text, and the [offsetWidth] of the
    container and of the search input when they are mounted. *)
Record Dom : Type := {
  measurementRef : bool;
  offsetWidthOf : string -> string -> Z;
  containerOffsetWidth : option Z;
  inputOffsetWidth : option Z
}.

Definition CONTAINER_GAP : Z := 0.
Definition RESOURCE_TYPE_GAP : Z := 0.

Definition measureElement (dom : Dom) (className content : string)
    (minWidth : Z) : Z :=
  if negb (measurementRef dom) then minWidth
  else Z.max (offsetWidthOf dom className content) minWidth.

Definition measureAllWidths (dom : Dom) (s : State) : State :=
  if negb (measurementRef dom) then s
  else
    let widths :=
      fold_left
        (fun widths resourceType =>
           recordSet resourceType
             (measureElement dom "network-filters-resource-type"
                resourceType 0)
             widths)
        allResourceTypes [] in
    let measuredTabbedWidth := measureElement dom "tabbed-pane" "•••" 80 in
    {| visibleResourceTypes := visibleResourceTypes s;
       overflowResourceTypes := overflowResourceTypes s;
       elementWidths := widths;
       tabbedPaneWidth := measuredTabbedWidth |}.

Definition getAvailableSpace (dom : Dom) : Z :=
  match containerOffsetWidth dom, inputOffsetWidth dom with
  | Some container, Some input => container - input - CONTAINER_GAP
  | _, _ => 0
  end.

(** [elementWidths[type] || 0], for the names the component looks up:
    the resource types, each either a key assigned by the measurement or
    not assigned yet.  Members a plain object inherits from its prototype
    are not modelled; no resource type is named like one. *)
Definition widthOf (widths : NumberRecord) (type : ResourceType) : Z :=
  match recordGet type widths with
  | Some w => w
  | None => 0
  end.

Definition calculateTotalWidth (widths : NumberRecord) (paneWidth : Z)
    (types : list ResourceType) (includeDropdown : bool) : Z :=
  let elementWidthsSum :=
    fold_left (fun sum type => sum + widthOf widths type) types 0 in
  let gapsWidth :=
    Z.max 0 (Z.of_nat (List.length types) - 1) * RESOURCE_TYPE_GAP in
  let dropdownWidth :=
    if includeDropdown then RESOURCE_TYPE_GAP + paneWidth else 0 in
  elementWidthsSum + gapsWidth + dropdownWidth.

(** The [for] loop of [findMaxVisibleCount] over the remaining values of
    [i]: the count is raised as long as the first [i] types fit, and the
    loop breaks at the first [i] that does not. *)
Fixpoint findMaxVisibleCountFrom (widths : NumberRecord) (paneWidth : Z)
    (availableWidth : Z) (candidates : list nat) (visibleCount : nat) : nat :=
  match candidates with
  | [] => visibleCount
  | i :: rest =>
      let testVisible := firstn i allResourceTypes in
      let widthNeeded := calculateTotalWidth widths paneWidth testVisible false in
      if widthNeeded <=? availableWidth
      then findMaxVisibleCountFrom widths paneWidth availableWidth rest i
      else visibleCount
  end.

Definition findMaxVisibleCount (widths : NumberRecord) (paneWidth : Z)
    (availableWidth : Z) : nat :=
  findMaxVisibleCountFrom widths paneWidth availableWidth
    (seq 0 (S (List.length allResourceTypes))) 0.

(** The first [i] types fit in the available width, without the
    dropdown and beside it. *)
Definition fits (widths : NumberRecord) (paneWidth availableWidth : Z)
    (i : nat) : Prop :=
  calculateTotalWidth widths paneWidth (firstn i allResourceTypes) false
  <= availableWidth.

Definition fitsWithDropdown (widths : NumberRecord)
    (paneWidth availableWidth : Z) (i : nat) : Prop :=
  calculateTotalWidth widths paneWidth (firstn i allResourceTypes) true
  <= availableWidth.

(** The [while] loop of [adjustForDropdown]. *)
Fixpoint adjustLoop (widths : NumberRecord) (paneWidth : Z)
    (availableWidth : Z) (visibleCount : nat) : nat :=
  match visibleCount with
  | O => O
  | S fewer =>
      let visible := firstn visibleCount allResourceTypes in
      let widthWithDropdown :=
        calculateTotalWidth widths paneWidth visible true in
      if widthWithDropdown <=? availableWidth then visibleCount
      else adjustLoop widths paneWidth availableWidth fewer
  end.

Definition adjustForDropdown (widths : NumberRecord) (paneWidth : Z)
    (visibleCount : nat) (availableWidth : Z) : nat :=
  if Nat.leb (List.length allResourceTypes) visibleCount then visibleCount
  else adjustLoop widths paneWidth availableWidth visibleCount.

(** The number of types [redistributeElements] leaves visible. *)
Definition settledCount (widths : NumberRecord) (paneWidth : Z)
    (availableWidth : Z) : nat :=
  adjustForDropdown widths paneWidth
    (findMaxVisibleCount widths paneWidth availableWidth) availableWidth.

Definition redistributeElements (dom : Dom) (s : State) : State :=
  let availableWidth := getAvailableSpace dom in
  if (availableWidth <=? 0) ||
     Nat.eqb (List.length (recordKeys (elementWidths s))) 0
  then s
  else
    let visibleCount :=
      findMaxVisibleCount (elementWidths s) (tabbedPaneWidth s)
        availableWidth in
    let visibleCount :=
      adjustForDropdown (elementWidths s) (tabbedPaneWidth s) visibleCount
        availableWidth in
    let visible := firstn visibleCount allResourceTypes in
    let overflow := skipn visibleCount allResourceTypes in
    {| visibleResourceTypes := visible;
       overflowResourceTypes := overflow;
       elementWidths := elementWidths s;
       tabbedPaneWidth := tabbedPaneWidth s |}.

(** What a render shows: the search text, one button per visible type
    with its selected flag, and the ids of the tabs of the overflow
    dropdown when there is one. *)
Record View : Type := {
  inputValue : string;
  buttons : list (ResourceType * bool);
  dropdownTabs : option (list ResourceType)
}.

(** The render.  [overflowResourceTypes.reverse()] reverses the array held
    in the state cell in place and returns it, so the state after the
    render holds the reversed list. *)
Definition render (filterState : FilterState) (s : State) : View * State :=
  let shown :=
    map (fun t => (t, String.eqb (resourceType filterState) t))
        (visibleResourceTypes s) in
  if Nat.ltb 0 (List.length (overflowResourceTypes s))
  then
    let reversed := rev (overflowResourceTypes s) in
    ({| inputValue := searchValue filterState;
        buttons := shown;
        dropdownTabs := Some reversed |},
     {| visibleResourceTypes := visibleResourceTypes s;
        overflowResourceTypes := reversed;
        elementWidths := elementWidths s;
        tabbedPaneWidth := tabbedPaneWidth s |})
  else
    ({| inputValue := searchValue filterState;
        buttons := shown;
        dropdownTabs := None |}, s).

(** The handlers of the rendered elements: the new filter state passed to
    [onFilterStateChange]. *)
Definition onSearchChange (filterState : FilterState) (value : string)
  : FilterState :=
  {| searchValue := value; resourceType := resourceType filterState |}.

Definition onResourceTypeClick (filterState : FilterState)
    (type : ResourceType) : FilterState :=
  {| searchValue := searchValue filterState; resourceType := type |}.

(** What happens to the component over time. *)
Inductive Event : Type :=
| Measure (dom : Dom)
| Redistribute (dom : Dom)
| Render (filterState : FilterState).

Definition step (e : Event) (s : State) : State :=
  match e with
  | Measure dom => measureAllWidths dom s
  | Redistribute dom => redistributeElements dom s
  | Render filterState => snd (render filterState s)
  end.

Definition run (events : list Event) (s : State) : State :=
  fold_left (fun s e => step e s) events s.

End NetworkFilters.

(** ** JavaScript arrays *)

Module JSArray.

Fixpoint indexOfFrom {A : Type} (same : A -> A -> bool) (x : A) (l : list A)
    (i : Z) : Z :=
  match l with
  | [] => -1
  | y :: rest => if same x y then i else indexOfFrom same x rest (i + 1)
  end.

(** [l.indexOf(x)]: the first index holding [x], or -1. *)
Definition indexOf {A : Type} (same : A -> A -> bool) (x : A) (l : list A)
  : Z :=
  indexOfFrom same x l 0.

(** Where [splice] starts: a negative [start] counts from the end, and
    the result is clamped to the array. *)
Definition spliceStart (len : nat) (start : Z) : nat :=
  if start <? 0 then Z.to_nat (Z.max (Z.of_nat len + start) 0)
  else Nat.min (Z.to_nat start) len.

(** The array after [l.splice(start, deleteCount, ...items)]. *)
Definition splice {A : Type} (start : Z) (deleteCount : nat) (items : list A)
    (l : list A) : list A :=
  let from := spliceStart (List.length l) start in
  firstn from l ++ items ++ skipn (from + deleteCount) l.

End JSArray.

(** ** Workbench (trace viewer) *)

Module Workbench.

Definition Stack := list string.

(** What the workbench reads of an action of the trace. *)
Record Action : Type := {
  callId : string;
  title : string;
  stack : option Stack
}.

Record ErrorDescription : Type := {
  error_action : option Action;
  error_stack : option Stack;
  error_message : string
}.

(** What the workbench reads of the trace model: its actions, and the
    result of [model.failedAction()]. *)
Record Model : Type := {
  actions : list Action;
  failedAction : option Action
}.

Definition Attachment := string.

Record HighlightedElement : Type := { lastEdited : string }.

Record Boundaries : Type := { minimum : Z; maximum : Z }.

(** The state cells the callbacks below read or write. *)
Record State : Type := {
  selectedCallId : option string;
  revealedError : option ErrorDescription;
  revealedAttachment : option (Attachment * Z);
  highlightedCallId : option string;
  selectedPropertiesTab : string;
  isInspecting : bool;
  highlightedElement : HighlightedElement;
  selectedTime : option Boundaries
}.

(** The initial state; [propertiesTab] is the stored setting, or its
    default for [showSourcesFirst]. *)
Definition initialState (storedPropertiesTab : option string)
    (showSourcesFirst : bool) : State :=
  {| selectedCallId := None;
     revealedError := None;
     revealedAttachment := None;
     highlightedCallId := None;
     selectedPropertiesTab :=
       match storedPropertiesTab with
       | Some tab => tab
       | None => if showSourcesFirst then "source" else "call"
       end;
     isInspecting := false;
     highlightedElement := {| lastEdited := "none" |};
     selectedTime := None |}.

Definition setSelectedAction (action : option Action) (s : State) : State :=
  {| selectedCallId := option_map callId action;
     revealedError := None;
     revealedAttachment := revealedAttachment s;
     highlightedCallId := highlightedCallId s;
     selectedPropertiesTab := selectedPropertiesTab s;
     isInspecting := isInspecting s;
     highlightedElement := highlightedElement s;
     selectedTime := selectedTime s |}.

Definition setHighlightedAction (action : option Action) (s : State) : State :=
  {| selectedCallId := selectedCallId s;
     revealedError := revealedError s;
     revealedAttachment := revealedAttachment s;
     highlightedCallId := option_map callId action;
     selectedPropertiesTab := selectedPropertiesTab s;
     isInspecting := isInspecting s;
     highlightedElement := highlightedElement s;
     selectedTime := selectedTime s |}.

(** The effect that runs when the model changes. *)
Definition onModelChanged (s : State) : State :=
  {| selectedCallId := selectedCallId s;
     revealedError := None;
     revealedAttachment := revealedAttachment s;
     highlightedCallId := highlightedCallId s;
     selectedPropertiesTab := selectedPropertiesTab s;
     isInspecting := isInspecting s;
     highlightedElement := highlightedElement s;
     selectedTime := None |}.

Definition onActionSelected (action : Action) (s : State) : State :=
  setHighlightedAction None (setSelectedAction (Some action) s).

Definition setIsInspectingState (value : bool) (s : State) : State :=
  {| selectedCallId := selectedCallId s;
     revealedError := revealedError s;
     revealedAttachment := revealedAttachment s;
     highlightedCallId := highlightedCallId s;
     selectedPropertiesTab := selectedPropertiesTab s;
     isInspecting := value;
     highlightedElement := highlightedElement s;
     selectedTime := selectedTime s |}.

Definition setSelectedPropertiesTab (tab : string) (s : State) : State :=
  {| selectedCallId := selectedCallId s;
     revealedError := revealedError s;
     revealedAttachment := revealedAttachment s;
     highlightedCallId := highlightedCallId s;
     selectedPropertiesTab := tab;
     isInspecting := isInspecting s;
     highlightedElement := highlightedElement s;
     selectedTime := selectedTime s |}.

Definition setHighlightedElement (element : HighlightedElement) (s : State)
  : State :=
  {| selectedCallId := selectedCallId s;
     revealedError := revealedError s;
     revealedAttachment := revealedAttachment s;
     highlightedCallId := highlightedCallId s;
     selectedPropertiesTab := selectedPropertiesTab s;
     isInspecting := isInspecting s;
     highlightedElement := element;
     selectedTime := selectedTime s |}.

Definition setRevealedError (error : option ErrorDescription) (s : State)
  : State :=
  {| selectedCallId := selectedCallId s;
     revealedError := error;
     revealedAttachment := revealedAttachment s;
     highlightedCallId := highlightedCallId s;
     selectedPropertiesTab := selectedPropertiesTab s;
     isInspecting := isInspecting s;
     highlightedElement := highlightedElement s;
     selectedTime := selectedTime s |}.

Definition setSelectedTime (time : option Boundaries) (s : State) : State :=
  {| selectedCallId := selectedCallId s;
     revealedError := revealedError s;
     revealedAttachment := revealedAttachment s;
     highlightedCallId := highlightedCallId s;
     selectedPropertiesTab := selectedPropertiesTab s;
     isInspecting := isInspecting s;
     highlightedElement := highlightedElement s;
     selectedTime := time |}.

Definition selectPropertiesTab (tab : string) (s : State) : State :=
  let s := setSelectedPropertiesTab tab s in
  if negb (String.eqb tab "inspector") then setIsInspectingState false s
  else s.

Definition setIsInspecting (value : bool) (s : State) : State :=
  let s' :=
    if negb (isInspecting s) && value then selectPropertiesTab "inspector" s
    else s in
  setIsInspectingState value s'.

Definition elementPicked (element : HighlightedElement) (s : State) : State :=
  selectPropertiesTab "inspector" (setHighlightedElement element s).

Definition revealAttachment (attachment : Attachment) (s : State) : State :=
  let s := selectPropertiesTab "attachments" s in
  {| selectedCallId := selectedCallId s;
     revealedError := revealedError s;
     revealedAttachment :=
       match revealedAttachment s with
       | None => Some (attachment, 0)
       | Some (_, revealCounter) => Some (attachment, revealCounter + 1)
       end;
     highlightedCallId := highlightedCallId s;
     selectedPropertiesTab := selectedPropertiesTab s;
     isInspecting := isInspecting s;
     highlightedElement := highlightedElement s;
     selectedTime := selectedTime s |}.

(** The [revealInSource] handler given to the errors tab. *)
Definition revealInSource (error : ErrorDescription) (s : State) : State :=
  let s :=
    match error_action error with
    | Some action => setSelectedAction (Some action) s
    | None => setRevealedError (Some error) s
    end in
  selectPropertiesTab "source" s.

(** The effect on [revealSource]. *)
Definition onRevealSource (revealSource : bool) (s : State) : State :=
  if revealSource then selectPropertiesTab "source" s else s.

(** Everything that can happen to the component. *)
Inductive Event : Type :=
| SetSelectedAction (action : option Action)
| SetHighlightedAction (action : option Action)
| ModelChanged
| OnActionSelected (action : Action)
| SelectPropertiesTab (tab : string)
| SetIsInspecting (value : bool)
| SetHighlightedElement (element : HighlightedElement)
| ElementPicked (element : HighlightedElement)
| RevealAttachment (attachment : Attachment)
| RevealInSource (error : ErrorDescription)
| RevealSource (revealSource : bool)
| SetSelectedTime (time : option Boundaries).

Definition step (e : Event) (s : State) : State :=
  match e with
  | SetSelectedAction action => setSelectedAction action s
  | SetHighlightedAction action => setHighlightedAction action s
  | ModelChanged => onModelChanged s
  | OnActionSelected action => onActionSelected action s
  | SelectPropertiesTab tab => selectPropertiesTab tab s
  | SetIsInspecting value => setIsInspecting value s
  | SetHighlightedElement element => setHighlightedElement element s
  | ElementPicked element => elementPicked element s
  | RevealAttachment attachment => revealAttachment attachment s
  | RevealInSource error => revealInSource error s
  | RevealSource revealSource => onRevealSource revealSource s
  | SetSelectedTime time => setSelectedTime time s
  end.

Definition run (events : list Event) (s : State) : State :=
  fold_left (fun s e => step e s) events s.

(** [model?.actions.find(a => a.callId === id)] *)
Definition findByCallId (model : option Model) (id : option string)
  : option Action :=
  match model, id with
  | Some m, Some id => find (fun a => String.eqb (callId a) id) (actions m)
  | _, _ => None
  end.

Definition highlightedAction (model : option Model) (s : State)
  : option Action :=
  findByCallId model (highlightedCallId s).

(** The loop that looks for the After Hooks item: [i] is the index of the
    head of [rest], [index] the value of the variable so far. *)
Fixpoint afterHooksLoop (rest : list Action) (i : nat) (index : nat) : nat :=
  match rest with
  | [] => index
  | a :: rest' =>
      if String.eqb (title a) "After Hooks" && negb (Nat.eqb i 0)
      then (i - 1)%nat
      else afterHooksLoop rest' (S i) index
  end.

Definition selectedAction (model : option Model) (s : State) : option Action :=
  let byId :=
    match selectedCallId s with
    | Some id =>
        if negb (String.eqb id "")
        then findByCallId model (Some id)
        else None
    | None => None
    end in
  match byId with
  | Some action => Some action
  | None =>
      match match model with
            | Some m => failedAction m
            | None => None
            end with
      | Some failed => Some failed
      | None =>
          match model with
          | Some m =>
              if negb (Nat.eqb (List.length (actions m)) 0)
              then
                let index :=
                  afterHooksLoop (actions m) 0
                    (List.length (actions m) - 1)%nat in
                nth_error (actions m) index
              else None
          | None => None
          end
      end
  end.

Definition activeAction (model : option Model) (s : State) : option Action :=
  match highlightedAction model s with
  | Some a => Some a
  | None => selectedAction model s
  end.

Definition revealedStack (model : option Model) (s : State) : option Stack :=
  match revealedError s with
  | Some error => error_stack error
  | None =>
      match activeAction model s with
      | Some a => stack a
      | None => None
      end
  end.

(** A tab of the properties pane, without its render function. *)
Record TabbedPaneTabModel : Type := {
  id : string;
  tab_title : string;
  count : option Z;
  errorCount : option Z
}.

Definition sameTab (a b : TabbedPaneTabModel) : bool :=
  String.eqb (id a) (id b).

(** The numbers the tabs show, read from the tab models. *)
Record Counts : Type := {
  errorsSize : Z;
  fallbackSourceErrorCount : option Z;
  consoleEntries : Z;
  networkResources : Z;
  visibleAttachments : option Z
}.

Definition tabs (counts : Counts) (annotations : option (list string))
    (showSourcesFirst : bool) : list TabbedPaneTabModel :=
  let inspectorTab :=
    {| id := "inspector"; tab_title := "Locator";
       count := None; errorCount := None |} in
  let callTab :=
    {| id := "call"; tab_title := "Call"; count := None; errorCount := None |} in
  let logTab :=
    {| id := "log"; tab_title := "Log"; count := None; errorCount := None |} in
  let errorsTab :=
    {| id := "errors"; tab_title := "Errors";
       count := None; errorCount := Some (errorsSize counts) |} in
  let sourceTab :=
    {| id := "source"; tab_title := "Source";
       count := None; errorCount := fallbackSourceErrorCount counts |} in
  let consoleTab :=
    {| id := "console"; tab_title := "Console";
       count := Some (consoleEntries counts); errorCount := None |} in
  let networkTab :=
    {| id := "network"; tab_title := "Network";
       count := Some (networkResources counts); errorCount := None |} in
  let attachmentsTab :=
    {| id := "attachments"; tab_title := "Attachments";
       count := visibleAttachments counts; errorCount := None |} in
  let tabs :=
    [inspectorTab; callTab; logTab; errorsTab; consoleTab; networkTab;
     sourceTab; attachmentsTab] in
  let tabs :=
    match annotations with
    | Some a =>
        tabs ++ [{| id := "annotations"; tab_title := "Annotations";
                    count := Some (Z.of_nat (List.length a));
                    errorCount := None |}]
    | None => tabs
    end in
  if showSourcesFirst
  then
    let sourceTabIndex := JSArray.indexOf sameTab sourceTab tabs in
    let tabs := JSArray.splice sourceTabIndex 1 [] tabs in
    JSArray.splice 1 0 [sourceTab] tabs
  else tabs.

End Workbench.

(** ** Inputs of the application, by what they can touch *)

Module ElectronInputs.

(** The inputs that run a listener which writes to the application: the
    context's page event and a page's close event. *)
Definition touchesWindows (i : ElectronApplication.Input) : bool :=
  match i with
  | ElectronApplication.ContextPage _ => true
  | ElectronApplication.PageClose _ => true
  | _ => false
  end.

(** Whether the second argument of [waitForEvent] lets a payload
    through: its predicate, if it has one, accepts the payload. *)
Definition accepts
    (optionsOrPredicate : option ElectronApplication.WaitForEventOptions)
    (payload : Payload) : bool :=
  match optionsOrPredicate with
  | Some (ElectronApplication.IsFunction f) => f payload
  | Some (ElectronApplication.IsObject (Some f) _) => f payload
  | _ => true
  end.

End ElectronInputs.

(** ** Sample objects *)

Module Samples.

Import Waiter.

(** One resolve binding on the event ready of an object, and a deadline
    of 1000 ms. *)
Definition readyWaiter : Waiter.t :=
  Waiter.waitForEvent "object@1" "ready" None
    (Waiter.rejectOnTimeout 1000 "Timeout 1000ms exceeded"
       (Waiter.createForEvent "object@1" "ready")).

(** A reject binding on closed and a resolve binding on data. *)
Definition dataWaiter : Waiter.t :=
  Waiter.waitForEvent "object@1" "data" None
    (Waiter.rejectOnEvent "object@1" "closed"
       (fun _ => TargetClosedError (Some "closed"))
       (Waiter.createForEvent "object@1" "data")).

Definition events : Events.Table :=
  {| Events.ElectronApplication_Close := "close";
     Events.ElectronApplication_Console := "console";
     Events.ElectronApplication_Window := "window" |}.

Definition platform : TimeoutSettings.Platform :=
  {| TimeoutSettings.sessionDefaultTimeout := None;
     TimeoutSettings.processDefaultTimeout := Some 30000 |}.

(** An application constructed over a context with two pages. *)
Definition twoWindows : ElectronApplication.t :=
  fst (ElectronApplication.constructor events "electron-app@1" platform false
         {| ElectronApplication.context_guid := "context@1";
            ElectronApplication._pages := ["page@1"; "page@2"] |}).

(** An application constructed over a context without pages. *)
Definition noWindows : ElectronApplication.t :=
  fst (ElectronApplication.constructor events "electron-app@1" platform false
         {| ElectronApplication.context_guid := "context@1";
            ElectronApplication._pages := [] |}).

End Samples.

(** * Properties *)

(** ** The waiter is a one-shot *)

Section WaiterFacts.

Import Waiter.

Lemma step_finalized (i : Input) (w : t) :
  status w <> Outstanding -> step i w = (w, None).
Proof.
  unfold step. destruct (status w); [congruence | reflexivity | reflexivity].
Qed.

Lemma run_finalized (w : t) (trace : list Input) :
  status w <> Outstanding -> run w trace = w.
Proof.
  intros H. induction trace as [|i rest IH]; simpl; [reflexivity|].
  rewrite (step_finalized i w H). exact IH.
Qed.

Lemma deliveries_finalized (w : t) (trace : list Input) :
  status w <> Outstanding -> deliveries w trace = [].
Proof.
  intros H. induction trace as [|i rest IH]; simpl; [reflexivity|].
  rewrite (step_finalized i w H). exact IH.
Qed.

(** The step of an outstanding waiter on which something fires. *)
Lemma step_fires (i : Input) (w : t) (o : Outcome) :
  status w = Outstanding -> fires w i = Some o ->
  step i w =
    ({| resolveBindings := [];
        rejectBindings := [];
        deadline := None;
        elapsed := advance i w;
        status := Settled o (advance i w);
        disposeCalls := disposeCalls w |}, Some o).
Proof.
  intros Hs Hf. unfold step. rewrite Hs, Hf. reflexivity.
Qed.

(** The step of an outstanding waiter on which nothing fires. *)
Lemma step_quiet (i : Input) (w : t) :
  status w = Outstanding -> fires w i = None ->
  step i w =
    ({| resolveBindings := resolveBindings w;
        rejectBindings := rejectBindings w;
        deadline := deadline w;
        elapsed := advance i w;
        status := Outstanding;
        disposeCalls := disposeCalls w |}, None).
Proof.
  intros Hs Hf. unfold step. rewrite Hs, Hf. reflexivity.
Qed.

(** A step delivers an outcome only by settling an outstanding waiter on
    it, with everything torn down. *)
Lemma step_delivers (i : Input) (w : t) (o : Outcome) :
  snd (step i w) = Some o ->
  status w = Outstanding /\ fires w i = Some o /\
  status (fst (step i w)) = Settled o (advance i w) /\
  subscriptions (fst (step i w)) = [] /\
  deadline (fst (step i w)) = None.
Proof.
  unfold step. destruct (status w) eqn:Hs; simpl; try discriminate.
  destruct (fires w i) as [o'|] eqn:Hf; simpl; try discriminate.
  intros H. injection H as ->. repeat split; reflexivity.
Qed.

Lemma step_status_cases (i : Input) (w : t) :
  (snd (step i w) = None /\ status (fst (step i w)) = status w) \/
  (exists o, snd (step i w) = Some o /\ status w = Outstanding /\
             status (fst (step i w)) = Settled o (advance i w)).
Proof.
  unfold step. destruct (status w) eqn:Hs; simpl; auto.
  destruct (fires w i) as [o|]; simpl; [right; exists o|left]; auto.
Qed.

Lemma run_app (w : t) (pre post : list Input) :
  run w (pre ++ post) = run (run w pre) post.
Proof.
  revert w. induction pre as [|i pre IH]; intros w; simpl; [reflexivity|].
  apply IH.
Qed.

Lemma deliveries_app (w : t) (pre post : list Input) :
  deliveries w (pre ++ post) =
  deliveries w pre ++ deliveries (run w pre) post.
Proof.
  revert w. induction pre as [|i pre IH]; intros w; simpl; [reflexivity|].
  destruct (snd (step i w)); rewrite IH; reflexivity.
Qed.

(** While the waiter is still outstanding nothing has been delivered and
    no binding has been touched. *)
Lemma run_outstanding (w : t) (trace : list Input) :
  status (run w trace) = Outstanding ->
  status w = Outstanding /\
  deliveries w trace = [] /\
  resolveBindings (run w trace) = resolveBindings w /\
  rejectBindings (run w trace) = rejectBindings w /\
  deadline (run w trace) = deadline w /\
  disposeCalls (run w trace) = disposeCalls w.
Proof.
  revert w. induction trace as [|i rest IH]; intros w H; simpl in *.
  - repeat split; auto.
  - destruct (IH _ H) as (Hs & Hd & Hr & Hj & Hl & Hc).
    destruct (step_status_cases i w) as [[Hn Hst]|[o [Ho [Hw Hst]]]].
    + rewrite Hn. rewrite Hst in Hs.
      assert (Hf : fires w i = None).
      { unfold step in Hn. rewrite Hs in Hn.
        destruct (fires w i); [discriminate|reflexivity]. }
      pose proof (step_quiet i w Hs Hf) as Hq.
      apply (f_equal fst) in Hq. simpl in Hq.
      rewrite Hr, Hj, Hl, Hc. repeat split; auto; rewrite Hq; reflexivity.
    + rewrite Hst in Hs. discriminate.
Qed.

Lemma deliveries_at_most_one (w : t) (trace : list Input) :
  (List.length (deliveries w trace) <= 1)%nat.
Proof.
  revert w. induction trace as [|i rest IH]; intros w; simpl; [lia|].
  destruct (step_status_cases i w) as [[Hn _]|[o [Ho [_ Hst]]]].
  - rewrite Hn. apply IH.
  - rewrite Ho. rewrite deliveries_finalized; [simpl; lia|].
    rewrite Hst. discriminate.
Qed.

(** What firing does to a run: the outcome is fixed for good. *)
Lemma fires_emit_run (w : t) (pre : list Input) emitter event payload :
  status (run w pre) = Outstanding ->
  fires (run w pre) (Emit emitter event payload) =
  fires w (Emit emitter event payload).
Proof.
  intros Hs. destruct (run_outstanding w pre Hs) as (_ & _ & Hr & Hj & _).
  unfold fires. rewrite Hr, Hj. reflexivity.
Qed.

(** What firing does to a run: the outcome is fixed for good. *)
Lemma run_fires (w : t) (pre post : list Input) (i : Input) (o : Outcome) :
  status (run w pre) = Outstanding ->
  fires (run w pre) i = Some o ->
  run w (pre ++ i :: post) = fst (step i (run w pre)) /\
  deliveries w (pre ++ i :: post) = [o] /\
  outcome (run w (pre ++ i :: post)) = Some o /\
  settledAt (run w (pre ++ i :: post)) = Some (advance i (run w pre)) /\
  subscriptions (run w (pre ++ i :: post)) = [] /\
  deadline (run w (pre ++ i :: post)) = None /\
  disposeCalls (run w (pre ++ i :: post)) = disposeCalls w.
Proof.
  intros Hs Hf.
  destruct (run_outstanding w pre Hs) as (_ & Hd & Hr & Hj & Hl & Hc).
  rewrite run_app, deliveries_app, Hd. simpl.
  rewrite (step_fires i _ o Hs Hf). simpl.
  rewrite run_finalized by (simpl; discriminate).
  rewrite deliveries_finalized by (simpl; discriminate).
  unfold outcome, settledAt, subscriptions. simpl. repeat split; auto.
Qed.

Lemma silent_fires_emit (w : t) emitter event payload :
  silent w (Emit emitter event payload) = true ->
  fires w (Emit emitter event payload) = None.
Proof.
  unfold silent, fires. intros H. apply andb_true_iff in H as [H1 H2].
  apply negb_true_iff in H1. rewrite H1.
  destruct (find _ _); [discriminate|reflexivity].
Qed.

Lemma forallb_silent_ext (w w' : t) (trace : list Input) :
  resolveBindings w' = resolveBindings w ->
  rejectBindings w' = rejectBindings w ->
  forallb (silent w') trace = forallb (silent w) trace.
Proof.
  intros Hr Hj. induction trace as [|i rest IH]; simpl; [reflexivity|].
  rewrite IH. f_equal.
  destruct i as [emitter event payload|dt]; unfold silent;
    [rewrite Hr, Hj|]; reflexivity.
Qed.

(** A waiter with a deadline ahead, fed inputs on which no binding
    fires: it stays outstanding strictly before the deadline and is
    rejected with the [TimeoutError] of its bound from the deadline on. *)
Lemma run_silent (trace : list Input) :
  forall (w : t) (d : Deadline),
    status w = Outstanding ->
    deadline w = Some d ->
    forallb (silent w) trace = true ->
    Z.of_N (elapsed w) < deadline_bound d ->
    (Z.of_N (elapsed w + total trace) < deadline_bound d /\
     status (run w trace) = Outstanding /\
     elapsed (run w trace) = (elapsed w + total trace)%N) \/
    (deadline_bound d <= Z.of_N (elapsed w + total trace) /\
     exists at_ms,
       status (run w trace) =
         Settled (Rejected (TimeoutError (deadline_bound d)
                                         (deadline_message d))) at_ms /\
       deadline_bound d <= Z.of_N at_ms).
Proof.
  induction trace as [|i rest IH]; intros w d Hs Hd Hq Hlt.
  - left. simpl. rewrite N.add_0_r. auto.
  - simpl in Hq. apply andb_true_iff in Hq as [Hi Hrest].
    destruct i as [emitter event payload|dt].
    + pose proof (step_quiet _ w Hs (silent_fires_emit _ _ _ _ Hi)) as Hstep.
      simpl run. rewrite Hstep. simpl fst.
      match goal with |- context [run ?x rest] => set (w1 := x) end.
      specialize (IH w1 d eq_refl Hd).
      rewrite (forallb_silent_ext w w1) in IH by reflexivity.
      specialize (IH Hrest Hlt). simpl total. exact IH.
    + simpl total. simpl run.
      assert (Hf : fires w (Tick dt) =
                   if deadline_bound d <=? Z.of_N (elapsed w + dt)
                   then Some (Rejected (TimeoutError (deadline_bound d)
                                                     (deadline_message d)))
                   else None)
        by (unfold fires; rewrite Hd; reflexivity).
      destruct (deadline_bound d <=? Z.of_N (elapsed w + dt)) eqn:Hb.
      * apply Z.leb_le in Hb. right. split; [lia|].
        exists (elapsed w + dt)%N.
        rewrite (step_fires _ w _ Hs Hf). simpl fst.
        rewrite run_finalized by (simpl; discriminate). simpl. auto.
      * apply Z.leb_gt in Hb.
        rewrite (step_quiet _ w Hs Hf). simpl fst.
        match goal with |- context [run ?x rest] => set (w1 := x) end.
        specialize (IH w1 d eq_refl Hd).
        rewrite (forallb_silent_ext w w1) in IH by reflexivity.
        specialize (IH Hrest Hb). simpl elapsed in IH.
        replace (elapsed w + (dt + total rest))%N
          with (elapsed w + dt + total rest)%N by lia.
        exact IH.
Qed.

End WaiterFacts.

(** C1.  A waiter resolves or rejects exactly once.  Along any sequence of
    inputs at most one outcome is delivered.  When an input delivers an
    outcome [o], every event binding and the timer are torn down in that
    same step, and whatever is fired afterwards neither changes the
    waiter, nor its outcome, nor delivers anything again: over the whole
    sequence [o] is delivered once. *)
Theorem waiter_settles_exactly_once
    (w : Waiter.t) (pre post : list Waiter.Input) (i : Waiter.Input)
    (o : Waiter.Outcome) :
  snd (Waiter.step i (Waiter.run w pre)) = Some o ->
  let settled := fst (Waiter.step i (Waiter.run w pre)) in
  Waiter.outcome settled = Some o /\
  Waiter.subscriptions settled = [] /\
  Waiter.deadline settled = None /\
  (forall emitter event, Waiter.refCount settled emitter event = 0%nat) /\
  Waiter.run settled post = settled /\
  Waiter.deliveries settled post = [] /\
  Waiter.deliveries w (pre ++ i :: post) = [o] /\
  Waiter.outcome (Waiter.run w (pre ++ i :: post)) = Some o /\
  (forall trace, (List.length (Waiter.deliveries w trace) <= 1)%nat).
Proof.
  intros H settled.
  destruct (step_delivers i _ o H) as (Hs & Hf & Hst & Hsub & Hdl).
  destruct (run_fires w pre post i o Hs Hf) as (Hrun & Hdel & Hout & _).
  assert (Hfin : Waiter.status settled <> Waiter.Outstanding)
    by (unfold settled; rewrite Hst; discriminate).
  repeat split.
  - unfold Waiter.outcome, settled. rewrite Hst. reflexivity.
  - exact Hsub.
  - exact Hdl.
  - intros emitter event. unfold Waiter.refCount, settled. rewrite Hsub.
    reflexivity.
  - apply run_finalized, Hfin.
  - apply deliveries_finalized, Hfin.
  - exact Hdel.
  - exact Hout.
  - apply deliveries_at_most_one.
Qed.

Lemma waiter_settles_exactly_once_witness :
  Waiter.deliveries Samples.dataWaiter
    ([Waiter.Tick 5] ++
     Waiter.Emit "object@1" "closed" PayloadNone ::
     [Waiter.Emit "object@1" "data" PayloadNone;
      Waiter.Emit "object@1" "closed" PayloadNone; Waiter.Tick 7])
  = [Waiter.Rejected (TargetClosedError (Some "closed"))].
Proof.
  apply (waiter_settles_exactly_once Samples.dataWaiter [Waiter.Tick 5]
           [Waiter.Emit "object@1" "data" PayloadNone;
            Waiter.Emit "object@1" "closed" PayloadNone; Waiter.Tick 7]
           (Waiter.Emit "object@1" "closed" PayloadNone)
           (Waiter.Rejected (TargetClosedError (Some "closed")))).
  reflexivity.
Defined.

(** C2.  The first bound event that fires determines the outcome.  In
    particular, on a waiter that is still outstanding, an emission that a
    reject binding is bound to and that is not a matching resolve event
    rejects the wait with the error built by that binding's factory; that
    rejection is the only outcome ever delivered, so no resolution occurs
    even if a matching resolve event arrives afterwards. *)
Theorem reject_before_resolve
    (w : Waiter.t) (pre post : list Waiter.Input)
    (emitter : Guid) (event : string) (payload : Payload)
    (b : Waiter.RejectBinding) :
  Waiter.status (Waiter.run w pre) = Waiter.Outstanding ->
  existsb (Waiter.resolveMatches emitter event payload)
          (Waiter.resolveBindings w) = false ->
  find (Waiter.rejectMatches emitter event) (Waiter.rejectBindings w) = Some b ->
  let trace := pre ++ Waiter.Emit emitter event payload :: post in
  let error := Waiter.reject_factory b tt in
  Waiter.outcome (Waiter.run w trace) = Some (Waiter.Rejected error) /\
  Waiter.deliveries w trace = [Waiter.Rejected error] /\
  (forall result, ~ In (Waiter.Resolved result) (Waiter.deliveries w trace)) /\
  (forall result,
      Waiter.outcome (Waiter.run w trace) <> Some (Waiter.Resolved result)).
Proof.
  intros Hs Hres Hrej trace error.
  assert (Hf : Waiter.fires (Waiter.run w pre)
                 (Waiter.Emit emitter event payload)
               = Some (Waiter.Rejected error)).
  { rewrite fires_emit_run by exact Hs.
    unfold Waiter.fires. rewrite Hres, Hrej. reflexivity. }
  destruct (run_fires w pre post _ _ Hs Hf) as (_ & Hdel & Hout & _).
  fold trace in Hdel, Hout.
  repeat split; auto.
  - intros result Hin. rewrite Hdel in Hin.
    destruct Hin as [Hin|[]]. discriminate.
  - intros result Heq. rewrite Hout in Heq. discriminate.
Qed.

Lemma reject_before_resolve_witness :
  Waiter.outcome
    (Waiter.run Samples.dataWaiter
       ([Waiter.Tick 3] ++
        Waiter.Emit "object@1" "closed" PayloadNone ::
        [Waiter.Emit "object@1" "data" (PayloadConsole "late")]))
  = Some (Waiter.Rejected (TargetClosedError (Some "closed"))).
Proof.
  apply (reject_before_resolve Samples.dataWaiter [Waiter.Tick 3]
           [Waiter.Emit "object@1" "data" (PayloadConsole "late")]
           "object@1" "closed" PayloadNone
           {| Waiter.reject_emitter := "object@1";
              Waiter.reject_event := "closed";
              Waiter.reject_factory :=
                fun _ => TargetClosedError (Some "closed") |});
    reflexivity.
Defined.

(** C3.  A waiter with a deadline set, on which nothing has fired so far.
    If a matching resolve event is dispatched before the deadline, the
    wait resolves with that event's payload, before the deadline, and
    that is the only outcome delivered however long one goes on waiting:
    no [TimeoutError] is raised afterwards.  If no bound event fires, the
    wait is outstanding as long as the deadline has not been reached, is
    rejected with the [TimeoutError] carrying the bound once it has, at a
    time no earlier than the deadline, and never resolves. *)
Theorem waiter_deadline
    (w : Waiter.t) (d : Waiter.Deadline) (quiet : list Waiter.Input) :
  Waiter.status w = Waiter.Outstanding ->
  Waiter.deadline w = Some d ->
  Z.of_N (Waiter.elapsed w) < Waiter.deadline_bound d ->
  forallb (Waiter.silent w) quiet = true ->
  let timeoutError :=
    TimeoutError (Waiter.deadline_bound d) (Waiter.deadline_message d) in
  (* a matching resolve event before the deadline *)
  (forall emitter event payload post,
      Z.of_N (Waiter.elapsed w + Waiter.total quiet) < Waiter.deadline_bound d ->
      existsb (Waiter.resolveMatches emitter event payload)
              (Waiter.resolveBindings w) = true ->
      let trace := quiet ++ Waiter.Emit emitter event payload :: post in
      Waiter.outcome (Waiter.run w trace) = Some (Waiter.Resolved payload) /\
      Waiter.deliveries w trace = [Waiter.Resolved payload] /\
      (exists at_ms, Waiter.settledAt (Waiter.run w trace) = Some at_ms /\
                     Z.of_N at_ms < Waiter.deadline_bound d) /\
      ~ In (Waiter.Rejected timeoutError) (Waiter.deliveries w trace)) /\
  (* no bound event fires *)
  (Z.of_N (Waiter.elapsed w + Waiter.total quiet) < Waiter.deadline_bound d ->
   Waiter.status (Waiter.run w quiet) = Waiter.Outstanding) /\
  (Waiter.deadline_bound d <= Z.of_N (Waiter.elapsed w + Waiter.total quiet) ->
   Waiter.outcome (Waiter.run w quiet) = Some (Waiter.Rejected timeoutError) /\
   exists at_ms, Waiter.settledAt (Waiter.run w quiet) = Some at_ms /\
                 Waiter.deadline_bound d <= Z.of_N at_ms) /\
  (forall result,
      Waiter.outcome (Waiter.run w quiet) <> Some (Waiter.Resolved result)).
Proof.
  intros Hs Hd Hlt Hq timeoutError.
  pose proof (run_silent quiet w d Hs Hd Hq Hlt) as Hcases.
  split; [|split; [|split]].
  - intros emitter event payload post Hbefore Hmatch trace.
    destruct Hcases as [(_ & Hout & Hel)|(Hge & _)]; [|lia].
    assert (Hf : Waiter.fires (Waiter.run w quiet)
                   (Waiter.Emit emitter event payload)
                 = Some (Waiter.Resolved payload)).
    { rewrite fires_emit_run by exact Hout.
      unfold Waiter.fires. rewrite Hmatch. reflexivity. }
    destruct (run_fires w quiet post _ _ Hout Hf)
      as (_ & Hdel & Hres & Hat & _).
    fold trace in Hdel, Hres, Hat.
    split; [exact Hres|]. split; [exact Hdel|]. split.
    + eexists. split; [exact Hat|]. simpl. rewrite Hel. exact Hbefore.
    + rewrite Hdel. intros [Hin|[]]. discriminate.
  - intros Hbefore. destruct Hcases as [(_ & Hout & _)|(Hge & _)]; [auto|lia].
  - intros Hreached.
    destruct Hcases as [(Hb & _)|(_ & at_ms & Hst & Hge)]; [lia|].
    split.
    + unfold Waiter.outcome. rewrite Hst. reflexivity.
    + exists at_ms. unfold Waiter.settledAt. rewrite Hst. auto.
  - intros result Heq.
    destruct Hcases as [(_ & Hout & _)|(_ & at_ms & Hst & _)];
      unfold Waiter.outcome in Heq; [rewrite Hout in Heq|rewrite Hst in Heq];
      discriminate.
Qed.

Lemma waiter_deadline_witness :
  Waiter.outcome
    (Waiter.run Samples.readyWaiter
       ([Waiter.Tick 200] ++
        Waiter.Emit "object@1" "ready" (PayloadConsole "up") ::
        [Waiter.Tick 5000]))
  = Some (Waiter.Resolved (PayloadConsole "up")).
Proof.
  refine (proj1 (proj1
    (waiter_deadline Samples.readyWaiter
       {| Waiter.deadline_bound := 1000;
          Waiter.deadline_message := "Timeout 1000ms exceeded" |}
       [Waiter.Tick 200] eq_refl eq_refl _ eq_refl)
    "object@1" "ready" (PayloadConsole "up") [Waiter.Tick 5000] _ eq_refl));
    reflexivity.
Defined.

(** ** The application and its waits *)

Section ApplicationFacts.

Import ElectronApplication.

Variable Events : Events.Table.

Lemma sameIdentity_refl (a : t) : sameIdentity a a.
Proof. repeat split. Qed.

Lemma sameIdentity_trans (a b c : t) :
  sameIdentity a b -> sameIdentity b c -> sameIdentity a c.
Proof.
  unfold sameIdentity. intros (A1 & A2 & A3 & A4 & A5 & A6)
                              (B1 & B2 & B3 & B4 & B5 & B6).
  repeat split; congruence.
Qed.

Lemma dispatch_sameIdentity (i : Input) (this : t) :
  sameIdentity this (fst (dispatch Events i this)).
Proof.
  destruct i; simpl; try apply sameIdentity_refl.
  - repeat split.
  - destruct (firePageClose page (_pageCloseOnce this) (_windows this)).
    repeat split.
Qed.

Lemma dispatchAll_cons (i : Input) (rest : list Input) (this : t) :
  dispatchAll Events (i :: rest) this =
  (fst (fst (dispatchAll Events rest (fst (dispatch Events i this)))),
   snd (dispatch Events i this) ++
     snd (fst (dispatchAll Events rest (fst (dispatch Events i this)))),
   observed (_guid this) i (snd (dispatch Events i this)) ++
     snd (dispatchAll Events rest (fst (dispatch Events i this)))).
Proof.
  simpl. destruct (dispatch Events i this) as [this1 out]. simpl.
  destruct (dispatchAll Events rest this1) as [[this2 out'] seen'].
  reflexivity.
Qed.

Lemma dispatchAll_sameIdentity (inputs : list Input) (this : t) :
  sameIdentity this (fst (fst (dispatchAll Events inputs this))).
Proof.
  revert this. induction inputs as [|i rest IH]; intros this.
  - apply sameIdentity_refl.
  - rewrite dispatchAll_cons. simpl.
    eapply sameIdentity_trans; [apply dispatch_sameIdentity|apply IH].
Qed.

Lemma dispatchAll_app (pre post : list Input) (this : t) :
  dispatchAll Events (pre ++ post) this =
  (fst (fst (dispatchAll Events post
               (fst (fst (dispatchAll Events pre this))))),
   snd (fst (dispatchAll Events pre this)) ++
     snd (fst (dispatchAll Events post
                 (fst (fst (dispatchAll Events pre this))))),
   snd (dispatchAll Events pre this) ++
     snd (dispatchAll Events post
            (fst (fst (dispatchAll Events pre this))))).
Proof.
  revert this. induction pre as [|i pre IH]; intros this.
  - simpl. destruct (dispatchAll Events post this) as [[a b] c]. reflexivity.
  - rewrite <- app_comm_cons. rewrite !dispatchAll_cons. rewrite IH. simpl.
    rewrite !app_assoc. reflexivity.
Qed.

Lemma dispatchAll_observed_at (pre post : list Input) (i : Input) (this : t) :
  let this1 := fst (fst (dispatchAll Events pre this)) in
  snd (dispatchAll Events (pre ++ i :: post) this) =
  snd (dispatchAll Events pre this) ++
  observed (_guid this) i (snd (dispatch Events i this1)) ++
  snd (dispatchAll Events post (fst (dispatch Events i this1))).
Proof.
  intros this1. rewrite dispatchAll_app. cbn [snd].
  rewrite dispatchAll_cons. cbn [snd]. fold this1.
  replace (_guid this1) with (_guid this); [reflexivity|].
  symmetry. apply (dispatchAll_sameIdentity pre this).
Qed.

Lemma dispatchAll_observed_close (pre post : list Input) (this : t) :
  snd (dispatchAll Events (pre ++ ChannelClose :: post) this) =
  snd (dispatchAll Events pre this) ++
  Waiter.Emit (_guid this) (Events.ElectronApplication_Close Events)
              PayloadNone ::
  snd (dispatchAll Events post (fst (fst (dispatchAll Events pre this)))).
Proof.
  rewrite dispatchAll_observed_at. reflexivity.
Qed.

(** [waitForEvent] in terms of the waiter it builds and what the waiter
    observes. *)
Lemma waitForEvent_unfold (this : t) (event : string)
    (optionsOrPredicate : option WaitForEventOptions) (inputs : list Input) :
  waitForEvent Events this event optionsOrPredicate inputs =
  let this' := fst (fst (dispatchAll Events inputs this)) in
  let waiter :=
    Waiter.run (waitForEvent_waiter Events this event optionsOrPredicate)
               (snd (dispatchAll Events inputs this)) in
  match Waiter.outcome waiter with
  | Some (Waiter.Resolved result) =>
      {| promise := _wrapApiCall this' (Fulfilled result);
         application := this';
         waiter := Some (Waiter.dispose waiter) |}
  | Some (Waiter.Rejected e) =>
      {| promise := _wrapApiCall this' (Failed e);
         application := this';
         waiter := Some waiter |}
  | None =>
      {| promise := _wrapApiCall this' Pending;
         application := this';
         waiter := Some waiter |}
  end.
Proof.
  unfold waitForEvent.
  destruct (dispatchAll Events inputs this) as [[this' out] seen].
  reflexivity.
Qed.

(** The bindings of the waiter [waitForEvent] builds. *)
Lemma waitForEvent_waiter_bindings (this : t) (event : string)
    (optionsOrPredicate : option WaitForEventOptions) :
  let w := waitForEvent_waiter Events this event optionsOrPredicate in
  Waiter.status w = Waiter.Outstanding /\
  Waiter.disposeCalls w = 0%nat /\
  Waiter.elapsed w = 0%N /\
  (exists predicate,
      Waiter.resolveBindings w =
        [{| Waiter.resolve_emitter := _guid this;
            Waiter.resolve_event := event;
            Waiter.resolve_predicate := predicate |}]) /\
  Waiter.rejectBindings w =
    if negb (String.eqb event (Events.ElectronApplication_Close Events))
    then [{| Waiter.reject_emitter := _guid this;
             Waiter.reject_event := Events.ElectronApplication_Close Events;
             Waiter.reject_factory := fun _ => TargetClosedError None |}]
    else [].
Proof.
  unfold waitForEvent_waiter.
  set (timeout := TimeoutSettings.timeout _ _).
  unfold Waiter.rejectOnTimeout.
  destruct (timeout =? 0);
    destruct (negb (String.eqb event
                      (Events.ElectronApplication_Close Events)));
    simpl; repeat split; eexists; reflexivity.
Qed.

Lemma run_never_abandons (trace : list Waiter.Input) (w : Waiter.t) :
  Waiter.status w <> Waiter.Abandoned ->
  Waiter.status (Waiter.run w trace) <> Waiter.Abandoned.
Proof.
  revert w. induction trace as [|i rest IH]; intros w H; simpl; [exact H|].
  apply IH.
  destruct (step_status_cases i w) as [[_ Hst]|[o [_ [_ Hst]]]];
    rewrite Hst; [exact H|discriminate].
Qed.

(** A pending [waitForEvent] has an outstanding waiter. *)
Lemma waitForEvent_pending (this : t) (event : string)
    (optionsOrPredicate : option WaitForEventOptions) (inputs : list Input) :
  promise (waitForEvent Events this event optionsOrPredicate inputs) = Pending ->
  Waiter.status
    (Waiter.run (waitForEvent_waiter Events this event optionsOrPredicate)
                (snd (dispatchAll Events inputs this)))
  = Waiter.Outstanding.
Proof.
  rewrite waitForEvent_unfold. cbv zeta.
  pose proof (run_never_abandons (snd (dispatchAll Events inputs this))
                (waitForEvent_waiter Events this event optionsOrPredicate))
    as Hna.
  destruct (waitForEvent_waiter_bindings this event optionsOrPredicate)
    as (Hs & _).
  rewrite Hs in Hna. specialize (Hna ltac:(discriminate)).
  unfold Waiter.outcome.
  destruct (Waiter.status (Waiter.run _ _)) as [|[result|e] at_ms|];
    simpl; try congruence.
  unfold _wrapApiCall. destruct (_sessionTornDown _);
    [destruct (isTargetClosedError e)|]; discriminate.
Qed.

End ApplicationFacts.

(** C4.  [waitForEvent] on an event other than the close event installs
    one reject binding on the application's close event, with no
    predicate, whose factory builds a [TargetClosedError].  If the close
    event occurs while the wait is still pending (so before the waited
    event and before the deadline), the wait rejects with that
    [TargetClosedError], whatever arrives afterwards. *)
Theorem close_rejects_wait
    (Events : Events.Table) (this : ElectronApplication.t) (event : string)
    (optionsOrPredicate : option ElectronApplication.WaitForEventOptions)
    (pre post : list ElectronApplication.Input) :
  event <> Events.ElectronApplication_Close Events ->
  ElectronApplication.promise
    (ElectronApplication.waitForEvent Events this event optionsOrPredicate pre)
  = Pending ->
  Waiter.rejectBindings
    (ElectronApplication.waitForEvent_waiter Events this event
       optionsOrPredicate)
  = [{| Waiter.reject_emitter := ElectronApplication._guid this;
        Waiter.reject_event := Events.ElectronApplication_Close Events;
        Waiter.reject_factory := fun _ => TargetClosedError None |}] /\
  ElectronApplication.promise
    (ElectronApplication.waitForEvent Events this event optionsOrPredicate
       (pre ++ ElectronApplication.ChannelClose :: post))
  = Failed (TargetClosedError None).
Proof.
  intros Hne Hpending.
  apply String.eqb_neq in Hne.
  destruct (waitForEvent_waiter_bindings Events this event optionsOrPredicate)
    as (_ & _ & _ & (predicate & Hres) & Hrej).
  rewrite Hne in Hrej. cbn [negb] in Hrej.
  split; [exact Hrej|].
  pose proof (waitForEvent_pending Events this event optionsOrPredicate pre
                Hpending) as Hout.
  rewrite waitForEvent_unfold. cbv zeta.
  rewrite dispatchAll_observed_close.
  set (w0 := ElectronApplication.waitForEvent_waiter Events this event
               optionsOrPredicate) in *.
  set (close := Waiter.Emit (ElectronApplication._guid this)
                  (Events.ElectronApplication_Close Events) PayloadNone).
  assert (Hf : Waiter.fires (Waiter.run w0
                  (snd (ElectronApplication.dispatchAll Events pre this))) close
               = Some (Waiter.Rejected (TargetClosedError None))).
  { unfold close. rewrite fires_emit_run by exact Hout.
    unfold Waiter.fires. rewrite Hres, Hrej.
    unfold Waiter.resolveMatches, Waiter.rejectMatches.
    cbn [existsb find Waiter.resolve_emitter Waiter.resolve_event
         Waiter.reject_emitter Waiter.reject_event Waiter.reject_factory].
    rewrite Hne, !String.eqb_refl. reflexivity. }
  match goal with
  | |- context [Waiter.run w0 (?a ++ close :: ?b)] =>
      destruct (run_fires w0 a b close _ Hout Hf) as (_ & _ & Ho & _)
  end.
  rewrite Ho. simpl.
  destruct (ElectronApplication._sessionTornDown _); reflexivity.
Qed.

Lemma close_rejects_wait_witness :
  ElectronApplication.promise
    (ElectronApplication.waitForEvent Samples.events Samples.noWindows
       "window" None
       ([ElectronApplication.Elapse 10] ++
        ElectronApplication.ChannelClose ::
        [ElectronApplication.ContextPage "page@9"]))
  = Failed (TargetClosedError None).
Proof.
  apply (close_rejects_wait Samples.events Samples.noWindows "window" None
           [ElectronApplication.Elapse 10]
           [ElectronApplication.ContextPage "page@9"]).
  - discriminate.
  - reflexivity.
Defined.

Section TeardownFacts.

Import Waiter.

Lemma dispose_torn_down (w : t) :
  subscriptions (dispose w) = [] /\ deadline (dispose w) = None /\
  disposeCalls (dispose w) = S (disposeCalls w) /\
  outcome (dispose w) = outcome w.
Proof.
  unfold dispose, outcome. simpl. repeat split.
  destruct (status w); reflexivity.
Qed.

End TeardownFacts.

(** C7.  [close()] resolves normally when the context's close fails with
    a [TargetClosedError], hands any other failure on unchanged, and
    resolves when the context's close resolves. *)
Theorem close_swallows_target_closed (e : Error) :
  (isTargetClosedError e = true ->
   ElectronApplication.close (Failed e) = Fulfilled tt) /\
  (isTargetClosedError e = false ->
   ElectronApplication.close (Failed e) = Failed e) /\
  (forall cause,
      ElectronApplication.close (Failed (TargetClosedError cause))
      = Fulfilled tt) /\
  ElectronApplication.close (Fulfilled tt) = Fulfilled tt /\
  ElectronApplication.close Pending = Pending.
Proof.
  unfold ElectronApplication.close, try_catch, await. simpl.
  repeat split; try (intros H; rewrite H; reflexivity); reflexivity.
Qed.

Lemma close_swallows_target_closed_witness :
  ElectronApplication.close (Failed (TargetClosedError None)) = Fulfilled tt /\
  ElectronApplication.close (Failed (TimeoutError 30000 "Timeout 30000ms exceeded"))
  = Failed (TimeoutError 30000 "Timeout 30000ms exceeded").
Proof.
  split.
  - apply (proj1 (close_swallows_target_closed (TargetClosedError None))).
    reflexivity.
  - apply (proj1 (proj2 (close_swallows_target_closed
                           (TimeoutError 30000 "Timeout 30000ms exceeded")))).
    reflexivity.
Defined.

Section ConstructorFacts.

Import ElectronApplication.

Variable Events : Events.Table.

Lemma _onPage_sameIdentity (page : Page) (this : t) :
  sameIdentity this (fst (_onPage Events page this)).
Proof. repeat split. Qed.

Lemma _onPages_cons (page : Page) (rest : list Page) (this : t) :
  _onPages Events (page :: rest) this =
  (fst (_onPages Events rest (fst (_onPage Events page this))),
   snd (_onPage Events page this) ++
   snd (_onPages Events rest (fst (_onPage Events page this)))).
Proof.
  cbn [_onPages]. destruct (_onPage Events page this) as [this1 out].
  cbn [fst snd]. destruct (_onPages Events rest this1). reflexivity.
Qed.

Lemma _onPages_sameIdentity (pages : list Page) (this : t) :
  sameIdentity this (fst (_onPages Events pages this)).
Proof.
  revert this. induction pages as [|page rest IH]; intros this.
  - apply sameIdentity_refl.
  - rewrite _onPages_cons. cbn [fst].
    eapply sameIdentity_trans; [apply _onPage_sameIdentity|apply IH].
Qed.

Lemma constructor_unfold (guid : Guid) (platform : TimeoutSettings.Platform)
    (sessionTornDown : bool) (context : BrowserContext) :
  constructor Events guid platform sessionTornDown context =
  let this :=
    {| _guid := guid;
       _platform := platform;
       _sessionTornDown := sessionTornDown;
       _eventToSubscriptionMapping := [];
       _context := context;
       _windows := PageSet.empty;
       _timeoutSettings := TimeoutSettings.new platform;
       _pageCloseOnce := [] |} in
  (_setEventToSubscriptionMapping
     [(Events.ElectronApplication_Console Events, "console")]
     (fst (_onPages Events (_pages context) this)),
   snd (_onPages Events (_pages context) this)).
Proof.
  unfold constructor. cbv zeta.
  destruct (_onPages Events (_pages context) _). reflexivity.
Qed.

Lemma constructor_timeoutSettings (guid : Guid)
    (platform : TimeoutSettings.Platform) (sessionTornDown : bool)
    (context : BrowserContext) :
  _timeoutSettings (fst (constructor Events guid platform sessionTornDown context))
  = TimeoutSettings.new platform.
Proof.
  rewrite constructor_unfold. cbv zeta. cbn [fst].
  unfold _setEventToSubscriptionMapping. cbn [_timeoutSettings].
  match goal with
  | |- _timeoutSettings (fst (_onPages Events ?ps ?t0)) = _ =>
      destruct (_onPages_sameIdentity ps t0) as (_ & H & _); rewrite H
  end.
  reflexivity.
Qed.

(** The deadline [waitForEvent] gives its waiter. *)
Lemma waitForEvent_waiter_deadline (this : t) (event : string)
    (optionsOrPredicate : option WaitForEventOptions) :
  let override :=
    match optionsOrPredicate with
    | Some (IsObject _ t) => t
    | _ => None
    end in
  let timeout :=
    TimeoutSettings.timeout (_timeoutSettings this)
      {| TimeoutSettings.timeout_opt := override |} in
  Waiter.deadline (waitForEvent_waiter Events this event optionsOrPredicate)
  = if timeout =? 0 then None
    else Some {| Waiter.deadline_bound := timeout;
                 Waiter.deadline_message := timeoutMessage timeout event |}.
Proof.
  intros override timeout.
  unfold waitForEvent_waiter.
  assert (Ht : TimeoutSettings.timeout (_timeoutSettings this)
            match
              match optionsOrPredicate with
              | Some o => o
              | None => IsObject None None
              end
            with
            | IsFunction _ => TimeoutSettings.noOptions
            | IsObject _ t => {| TimeoutSettings.timeout_opt := t |}
            end = timeout).
  { unfold timeout, override.
    destruct optionsOrPredicate as [[f|p t]|]; reflexivity. }
  rewrite Ht. unfold Waiter.rejectOnTimeout.
  destruct (timeout =? 0);
    destruct (negb (String.eqb event _)); reflexivity.
Qed.

End ConstructorFacts.

(** C5.  The effective timeout is resolved by precedence: the per-call
    override when present; else the per-object default, which a new
    settings object inherits from the session default; else the
    process-wide default.  With process default 30000 and object default
    10000 the result is 10000 without an override and 5000 with the
    override 5000.  The application creates its settings with
    [new TimeoutSettings(platform)], and [waitForEvent] takes the deadline
    of its wait from that resolution, the override being the [timeout] of
    the options object (none when a predicate function is passed). *)
Theorem effective_timeout_precedence
    (s : TimeoutSettings.t) (options : TimeoutSettings.Options) :
  (forall t, TimeoutSettings.timeout_opt options = Some t ->
             TimeoutSettings.timeout s options = t) /\
  (forall t, TimeoutSettings.timeout_opt options = None ->
             TimeoutSettings._defaultTimeout s = Some t ->
             TimeoutSettings.timeout s options = t) /\
  (forall t, TimeoutSettings.timeout_opt options = None ->
             TimeoutSettings._defaultTimeout s = None ->
             TimeoutSettings.processDefaultTimeout
               (TimeoutSettings._platform s) = Some t ->
             TimeoutSettings.timeout s options = t) /\
  (forall platform,
      TimeoutSettings._defaultTimeout (TimeoutSettings.new platform)
      = TimeoutSettings.sessionDefaultTimeout platform) /\
  (let platform :=
     {| TimeoutSettings.sessionDefaultTimeout := None;
        TimeoutSettings.processDefaultTimeout := Some 30000 |} in
   let settings :=
     TimeoutSettings.setDefaultTimeout (Some 10000)
       (TimeoutSettings.new platform) in
   TimeoutSettings.timeout settings TimeoutSettings.noOptions = 10000 /\
   TimeoutSettings.timeout settings
     {| TimeoutSettings.timeout_opt := Some 5000 |} = 5000 /\
   TimeoutSettings.timeout (TimeoutSettings.new platform)
     TimeoutSettings.noOptions = 30000) /\
  (forall Events guid platform torn context,
      ElectronApplication._timeoutSettings
        (fst (ElectronApplication.constructor Events guid platform torn context))
      = TimeoutSettings.new platform) /\
  (forall Events this event optionsOrPredicate,
      let override :=
        match optionsOrPredicate with
        | Some (ElectronApplication.IsObject _ t) => t
        | _ => None
        end in
      let timeout :=
        TimeoutSettings.timeout (ElectronApplication._timeoutSettings this)
          {| TimeoutSettings.timeout_opt := override |} in
      Waiter.deadline
        (ElectronApplication.waitForEvent_waiter Events this event
           optionsOrPredicate)
      = if timeout =? 0 then None
        else Some {| Waiter.deadline_bound := timeout;
                     Waiter.deadline_message :=
                       ElectronApplication.timeoutMessage timeout event |}).
Proof.
  split; [|split; [|split; [|split; [|split; [|split]]]]].
  - intros t H. unfold TimeoutSettings.timeout. rewrite H. reflexivity.
  - intros t H1 H2. unfold TimeoutSettings.timeout. rewrite H1, H2.
    reflexivity.
  - intros t H1 H2 H3. unfold TimeoutSettings.timeout. rewrite H1, H2, H3.
    reflexivity.
  - reflexivity.
  - repeat split.
  - intros. apply constructor_timeoutSettings.
  - intros Events this event optionsOrPredicate.
    apply waitForEvent_waiter_deadline.
Qed.

Lemma effective_timeout_precedence_witness :
  TimeoutSettings.timeout
    (TimeoutSettings.new
       {| TimeoutSettings.sessionDefaultTimeout := Some 10000;
          TimeoutSettings.processDefaultTimeout := Some 30000 |})
    {| TimeoutSettings.timeout_opt := Some 5000 |} = 5000 /\
  TimeoutSettings.timeout
    (TimeoutSettings.new
       {| TimeoutSettings.sessionDefaultTimeout := Some 10000;
          TimeoutSettings.processDefaultTimeout := Some 30000 |})
    TimeoutSettings.noOptions = 10000.
Proof.
  split.
  - apply (proj1 (effective_timeout_precedence _ _) 5000). reflexivity.
  - apply (proj1 (proj2 (effective_timeout_precedence _ _)) 10000);
      reflexivity.
Defined.

(** ** The window set *)

Section PageSetFacts.

Lemma has_true_iff (page : Page) (s : PageSet.t) :
  PageSet.has page s = true <-> In page s.
Proof.
  unfold PageSet.has. rewrite existsb_exists. split.
  - intros (q & Hin & Heq). apply String.eqb_eq in Heq. subst. exact Hin.
  - intros Hin. exists page. split; [exact Hin|apply String.eqb_refl].
Qed.

Lemma has_false_iff (page : Page) (s : PageSet.t) :
  PageSet.has page s = false <-> ~ In page s.
Proof.
  rewrite <- has_true_iff. destruct (PageSet.has page s); split; intros H;
    try congruence; try discriminate.
Qed.

Lemma has_ext (page : Page) (a b : list Page) :
  (In page a <-> In page b) -> PageSet.has page a = PageSet.has page b.
Proof.
  intros H. destruct (PageSet.has page b) eqn:Hb.
  - apply has_true_iff, H, has_true_iff, Hb.
  - apply has_false_iff. intros Ha. apply has_false_iff in Hb. tauto.
Qed.

Lemma has_cons (page q : Page) (s : list Page) :
  PageSet.has page (q :: s) = String.eqb page q || PageSet.has page s.
Proof. reflexivity. Qed.

Lemma has_app (page : Page) (a b : list Page) :
  PageSet.has page (a ++ b) = PageSet.has page a || PageSet.has page b.
Proof. unfold PageSet.has. apply existsb_app. Qed.

Lemma add_In (page q : Page) (s : PageSet.t) :
  In q (PageSet.add page s) <-> In q s \/ q = page.
Proof.
  unfold PageSet.add. destruct (PageSet.has page s) eqn:H.
  - apply has_true_iff in H. split; [auto|]. intros [Hq| ->]; assumption.
  - rewrite in_app_iff. simpl. intuition congruence.
Qed.

Lemma has_add (page q : Page) (s : PageSet.t) :
  PageSet.has q (PageSet.add page s) = PageSet.has q s || String.eqb q page.
Proof.
  destruct (PageSet.has q s || String.eqb q page) eqn:H.
  - apply has_true_iff, add_In. apply orb_true_iff in H as [H|H].
    + left. apply has_true_iff, H.
    + right. apply String.eqb_eq, H.
  - apply has_false_iff. rewrite add_In.
    apply orb_false_iff in H as [H1 H2].
    apply has_false_iff in H1. apply String.eqb_neq in H2. tauto.
Qed.

Lemma delete_In (page q : Page) (s : PageSet.t) :
  In q (PageSet.delete page s) <-> In q s /\ q <> page.
Proof.
  unfold PageSet.delete. rewrite filter_In, negb_true_iff, String.eqb_neq.
  intuition congruence.
Qed.

Lemma has_delete (page q : Page) (s : PageSet.t) :
  PageSet.has q (PageSet.delete page s) =
  PageSet.has q s && negb (String.eqb q page).
Proof.
  destruct (PageSet.has q s && negb (String.eqb q page)) eqn:H.
  - apply has_true_iff, delete_In. apply andb_true_iff in H as [H1 H2].
    apply has_true_iff in H1. apply negb_true_iff, String.eqb_neq in H2. tauto.
  - apply has_false_iff. rewrite delete_In. intros [H1 H2].
    apply has_true_iff in H1. apply String.eqb_neq in H2.
    rewrite H1, H2 in H. discriminate.
Qed.

Lemma delete_absent (page : Page) (s : PageSet.t) :
  ~ In page s -> PageSet.delete page s = s.
Proof.
  intros H. unfold PageSet.delete. induction s as [|q s IH]; [reflexivity|].
  simpl. destruct (String.eqb page q) eqn:E.
  - apply String.eqb_eq in E. subst. exfalso. apply H. left. reflexivity.
  - simpl. f_equal. apply IH. intros Hin. apply H. right. exact Hin.
Qed.

Lemma delete_idempotent (page : Page) (s : PageSet.t) :
  PageSet.delete page (PageSet.delete page s) = PageSet.delete page s.
Proof.
  apply delete_absent. rewrite delete_In. tauto.
Qed.

Lemma of_list_snoc (pages : list Page) (page : Page) :
  PageSet.of_list (pages ++ [page]) = PageSet.add page (PageSet.of_list pages).
Proof.
  unfold PageSet.of_list. rewrite fold_left_app. reflexivity.
Qed.

Lemma of_list_In (pages : list Page) (q : Page) :
  In q (PageSet.of_list pages) <-> In q pages.
Proof.
  induction pages as [|page pages IH] using rev_ind.
  - simpl. tauto.
  - rewrite of_list_snoc, add_In, in_app_iff, IH. simpl. intuition congruence.
Qed.

Lemma add_NoDup (page : Page) (s : PageSet.t) :
  NoDup s -> NoDup (PageSet.add page s).
Proof.
  intros H. unfold PageSet.add. destruct (PageSet.has page s) eqn:E; [exact H|].
  apply has_false_iff in E.
  apply NoDup_app; [exact H|constructor; [intros []|constructor]|].
  intros x Hx [<-|[]]. exact (E Hx).
Qed.

Lemma of_list_NoDup (pages : list Page) : NoDup (PageSet.of_list pages).
Proof.
  induction pages as [|page pages IH] using rev_ind.
  - constructor.
  - rewrite of_list_snoc. apply add_NoDup, IH.
Qed.

(** Adding an open page to the open part of a set. *)
Lemma add_filter_open (page : Page) (gone : list Page) (s : PageSet.t) :
  PageSet.has page gone = false ->
  PageSet.add page (filter (fun q => negb (PageSet.has q gone)) s) =
  filter (fun q => negb (PageSet.has q gone)) (PageSet.add page s).
Proof.
  intros Hopen. unfold PageSet.add.
  destruct (PageSet.has page s) eqn:Hs.
  - assert (H : PageSet.has page
                  (filter (fun q => negb (PageSet.has q gone)) s) = true).
    { apply has_true_iff, filter_In. split; [apply has_true_iff, Hs|].
      rewrite Hopen. reflexivity. }
    rewrite H. reflexivity.
  - assert (H : PageSet.has page
                  (filter (fun q => negb (PageSet.has q gone)) s) = false).
    { apply has_false_iff. rewrite filter_In. intros [Hin _].
      apply has_false_iff in Hs. exact (Hs Hin). }
    rewrite H, filter_app. simpl. rewrite Hopen. reflexivity.
Qed.

(** Deleting a page from the open part of a set. *)
Lemma delete_filter_open (page : Page) (gone : list Page) (s : PageSet.t) :
  PageSet.delete page (filter (fun q => negb (PageSet.has q gone)) s) =
  filter (fun q => negb (PageSet.has q (page :: gone))) s.
Proof.
  unfold PageSet.delete. induction s as [|q s IH]; [reflexivity|].
  cbn [filter]. rewrite has_cons.
  destruct (PageSet.has q gone) eqn:Hg.
  - rewrite orb_true_r. cbn [negb]. exact IH.
  - rewrite orb_false_r. cbn [negb filter]. rewrite (String.eqb_sym page q).
    destruct (String.eqb q page); cbn [negb]; [exact IH|f_equal; exact IH].
Qed.

End PageSetFacts.

Section WindowFacts.

Import ElectronApplication.

Variable Events : Events.Table.

(** The close handlers of a page, taken together: the page leaves the
    window set if a handler was registered for it, and its handlers are
    gone. *)
Lemma firePageClose_spec (page : Page) (pending : list Page)
    (windows : PageSet.t) :
  firePageClose page pending windows =
  (filter (fun q => negb (String.eqb page q)) pending,
   if PageSet.has page pending then PageSet.delete page windows else windows).
Proof.
  revert windows. induction pending as [|q rest IH]; intros windows.
  - reflexivity.
  - cbn [firePageClose filter]. rewrite has_cons.
    destruct (String.eqb page q) eqn:E.
    + rewrite IH. cbn [negb orb]. rewrite delete_idempotent.
      destruct (PageSet.has page rest); reflexivity.
    + rewrite IH. reflexivity.
Qed.

Lemma dispatch_ContextPage (page : Page) (this : t) :
  _windows (fst (dispatch Events (ContextPage page) this))
  = PageSet.add page (_windows this) /\
  _pageCloseOnce (fst (dispatch Events (ContextPage page) this))
  = _pageCloseOnce this ++ [page] /\
  snd (dispatch Events (ContextPage page) this)
  = [(Events.ElectronApplication_Window Events, PayloadPage page)].
Proof. repeat split. Qed.

Lemma dispatch_PageClose (page : Page) (this : t) :
  _windows (fst (dispatch Events (PageClose page) this))
  = (if PageSet.has page (_pageCloseOnce this)
     then PageSet.delete page (_windows this) else _windows this) /\
  _pageCloseOnce (fst (dispatch Events (PageClose page) this))
  = filter (fun q => negb (String.eqb page q)) (_pageCloseOnce this) /\
  snd (dispatch Events (PageClose page) this) = [].
Proof.
  cbn [dispatch]. rewrite firePageClose_spec. repeat split.
Qed.

Lemma tracks_ContextPage (page : Page) (this : t) (arrived gone : list Page) :
  tracks this arrived gone ->
  PageSet.has page gone = false ->
  tracks (fst (dispatch Events (ContextPage page) this))
         (arrived ++ [page]) gone.
Proof.
  intros [Hpending Hwin] Hopen.
  destruct (dispatch_ContextPage page this) as (Hw & Hp & _).
  unfold tracks. rewrite Hw, Hp. split.
  - intros q Hq. apply add_In in Hq. apply in_app_iff.
    destruct Hq as [Hq| ->]; [left; apply Hpending, Hq|right; left; reflexivity].
  - rewrite of_list_snoc, Hwin. apply add_filter_open, Hopen.
Qed.

Lemma tracks_PageClose (page : Page) (this : t) (arrived gone : list Page) :
  tracks this arrived gone ->
  tracks (fst (dispatch Events (PageClose page) this)) arrived (page :: gone) /\
  _windows (fst (dispatch Events (PageClose page) this))
  = PageSet.delete page (_windows this).
Proof.
  intros [Hpending Hwin].
  destruct (dispatch_PageClose page this) as (Hw & Hp & _).
  assert (Hdel : _windows (fst (dispatch Events (PageClose page) this))
                 = PageSet.delete page (_windows this)).
  { rewrite Hw. destruct (PageSet.has page (_pageCloseOnce this)) eqn:E;
      [reflexivity|].
    symmetry. apply delete_absent. intros Hin.
    apply has_false_iff in E. exact (E (Hpending _ Hin)). }
  split; [|exact Hdel].
  unfold tracks. rewrite Hp, Hdel. split.
  - intros q Hq. apply delete_In in Hq as [Hq Hne].
    apply filter_In. split; [apply Hpending, Hq|].
    apply negb_true_iff, String.eqb_neq. congruence.
  - rewrite Hwin. apply delete_filter_open.
Qed.

(** The window set after any inputs that respect the life cycle of pages. *)
Lemma dispatchAll_tracks (inputs : list Input) :
  forall (this : t) (arrived gone : list Page),
    tracks this arrived gone ->
    closedPagesStayClosed gone inputs = true ->
    tracks (fst (fst (dispatchAll Events inputs this)))
           (arrived ++ announced inputs) (rev (closed inputs) ++ gone).
Proof.
  induction inputs as [|i rest IH]; intros this arrived gone Ht Hl.
  - simpl. rewrite app_nil_r. exact Ht.
  - rewrite dispatchAll_cons. cbn [fst].
    destruct i as [page|page| |event|dt].
    + cbn [closedPagesStayClosed] in Hl. apply andb_true_iff in Hl as [Ho Hl].
      apply negb_true_iff in Ho.
      cbn [announced closed].
      replace (arrived ++ page :: announced rest)
        with ((arrived ++ [page]) ++ announced rest)
        by (rewrite <- app_assoc; reflexivity).
      apply IH; [apply tracks_ContextPage; assumption|exact Hl].
    + cbn [closedPagesStayClosed] in Hl. cbn [announced closed rev].
      rewrite <- app_assoc. cbn [app].
      apply IH; [apply tracks_PageClose; assumption|exact Hl].
    + apply IH; assumption.
    + apply IH; assumption.
    + apply IH; assumption.
Qed.

Lemma tracks_onPages (pages : list Page) :
  forall (this : t) (arrived : list Page),
    tracks this arrived [] ->
    tracks (fst (_onPages Events pages this)) (arrived ++ pages) [].
Proof.
  induction pages as [|page rest IH]; intros this arrived Ht.
  - simpl. rewrite app_nil_r. exact Ht.
  - rewrite _onPages_cons. cbn [fst].
    replace (arrived ++ page :: rest) with ((arrived ++ [page]) ++ rest)
      by (rewrite <- app_assoc; reflexivity).
    apply IH. apply (tracks_ContextPage page this arrived [] Ht). reflexivity.
Qed.

Lemma tracks_constructor (guid : Guid) (platform : TimeoutSettings.Platform)
    (sessionTornDown : bool) (context : BrowserContext) :
  tracks (fst (constructor Events guid platform sessionTornDown context))
         (_pages context) [].
Proof.
  rewrite constructor_unfold. cbv zeta. cbn [fst].
  match goal with
  | |- tracks (_setEventToSubscriptionMapping _ (fst (_onPages _ _ ?t0))) _ _ =>
      pose proof (tracks_onPages (_pages context) t0 []) as H
  end.
  cbn [app] in H. apply H. split; [intros page []|reflexivity].
Qed.

Lemma windowEvents_app (a b : list Emission) :
  windowEvents Events (a ++ b) = windowEvents Events a ++ windowEvents Events b.
Proof. unfold windowEvents. apply flat_map_app. Qed.

Lemma windowEvents_dispatchAll (inputs : list Input) (this : t) :
  windowEvents Events (snd (fst (dispatchAll Events inputs this)))
  = announced inputs.
Proof.
  revert this. induction inputs as [|i rest IH]; intros this; [reflexivity|].
  rewrite dispatchAll_cons. cbn [fst snd]. rewrite windowEvents_app, IH.
  destruct i as [page|page| |event|dt]; cbn [announced].
  - cbn. rewrite String.eqb_refl. reflexivity.
  - destruct (dispatch_PageClose page this) as (_ & _ & H). rewrite H.
    reflexivity.
  - cbn. destruct (String.eqb _ _); reflexivity.
  - cbn. destruct (String.eqb _ _); reflexivity.
  - reflexivity.
Qed.

Lemma windowEvents_onPages (pages : list Page) (this : t) :
  windowEvents Events (snd (_onPages Events pages this)) = pages.
Proof.
  revert this. induction pages as [|page rest IH]; intros this; [reflexivity|].
  rewrite _onPages_cons. cbn [snd]. rewrite windowEvents_app, IH.
  cbn. rewrite String.eqb_refl. reflexivity.
Qed.

Lemma closed_pages_not_announced (inputs : list Input) :
  forall (gone : list Page) (page : Page),
    closedPagesStayClosed gone inputs = true ->
    PageSet.has page gone = true ->
    PageSet.has page (announced inputs) = false.
Proof.
  induction inputs as [|i rest IH]; intros gone page Hl Hg; [reflexivity|].
  destruct i as [q|q| |event|dt]; cbn [closedPagesStayClosed announced] in *.
  - apply andb_true_iff in Hl as [Hq Hl]. apply negb_true_iff in Hq.
    rewrite has_cons, (IH gone page Hl Hg), orb_false_r.
    apply String.eqb_neq. intros ->. congruence.
  - apply (IH (q :: gone) page Hl). rewrite has_cons, Hg. apply orb_true_r.
  - apply (IH gone page Hl Hg).
  - apply (IH gone page Hl Hg).
  - apply (IH gone page Hl Hg).
Qed.

Lemma tracks_has (this : t) (arrived gone : list Page) (page : Page) :
  tracks this arrived gone ->
  PageSet.has page (_windows this)
  = PageSet.has page arrived && negb (PageSet.has page gone).
Proof.
  intros [_ Hwin]. rewrite Hwin.
  destruct (PageSet.has page arrived && negb (PageSet.has page gone)) eqn:H.
  - apply andb_true_iff in H as [Ha Hg].
    apply has_true_iff, filter_In. split; [|exact Hg].
    apply of_list_In, has_true_iff, Ha.
  - apply has_false_iff. rewrite filter_In, of_list_In. intros [Ha Hg].
    apply has_true_iff in Ha. rewrite Ha, Hg in H. discriminate.
Qed.

(** How often a page leaves the window set. *)
Lemma removals_spec (inputs : list Input) :
  forall (this : t) (arrived gone : list Page) (page : Page),
    tracks this arrived gone ->
    closedPagesStayClosed gone inputs = true ->
    removals Events page inputs this =
    if PageSet.has page (closed inputs) && negb (PageSet.has page gone) &&
       (PageSet.has page arrived || PageSet.has page (announced inputs))
    then 1%nat else 0%nat.
Proof.
  induction inputs as [|i rest IH]; intros this arrived gone page Ht Hl.
  - reflexivity.
  - cbn [removals]. pose proof (tracks_has this arrived gone page Ht) as Hw.
    destruct i as [q|q| |event|dt]; cbn [closedPagesStayClosed] in Hl.
    + apply andb_true_iff in Hl as [Hq Hl]. apply negb_true_iff in Hq.
      rewrite (IH _ (arrived ++ [q]) gone page
                 (tracks_ContextPage q this arrived gone Ht Hq) Hl).
      rewrite (proj1 (dispatch_ContextPage q this)), has_add, Hw.
      cbn [closed announced]. rewrite has_app, !has_cons.
      destruct (PageSet.has page (closed rest)), (PageSet.has page gone),
        (PageSet.has page arrived), (String.eqb page q),
        (PageSet.has page (announced rest)); reflexivity.
    + destruct (tracks_PageClose q this arrived gone Ht) as [Ht' Hdel].
      rewrite (IH _ arrived (q :: gone) page Ht' Hl).
      rewrite Hdel, has_delete, Hw.
      cbn [closed announced]. rewrite !has_cons.
      destruct (String.eqb page q) eqn:E.
      * assert (Hna : PageSet.has page (announced rest) = false).
        { apply (closed_pages_not_announced rest (q :: gone) page Hl).
          rewrite has_cons, E. reflexivity. }
        rewrite Hna.
        destruct (PageSet.has page (closed rest)), (PageSet.has page gone),
          (PageSet.has page arrived); reflexivity.
      * destruct (PageSet.has page (closed rest)), (PageSet.has page gone),
          (PageSet.has page arrived), (PageSet.has page (announced rest));
          reflexivity.
    + cbn [dispatch emit fst]. rewrite (IH _ arrived gone page Ht Hl).
      cbn [closed announced].
      destruct (PageSet.has page (_windows this)); reflexivity.
    + cbn [dispatch emit fst]. rewrite (IH _ arrived gone page Ht Hl).
      cbn [closed announced].
      destruct (PageSet.has page (_windows this)); reflexivity.
    + cbn [dispatch fst]. rewrite (IH _ arrived gone page Ht Hl).
      cbn [closed announced].
      destruct (PageSet.has page (_windows this)); reflexivity.
Qed.

End WindowFacts.

Section HistoryFacts.

Import ElectronApplication.

Variable Events : Events.Table.

(** The window set of an application, from its construction on. *)
Lemma windows_after_history (guid : Guid) (platform : TimeoutSettings.Platform)
    (sessionTornDown : bool) (context : BrowserContext)
    (history : list Input) :
  closedPagesStayClosed [] history = true ->
  _windows
    (fst (fst (dispatchAll Events history
                 (fst (constructor Events guid platform sessionTornDown
                         context)))))
  = filter (stillOpen history)
           (PageSet.of_list (_pages context ++ announced history)).
Proof.
  intros Hl.
  destruct (dispatchAll_tracks Events history _ _ _
              (tracks_constructor Events guid platform sessionTornDown context)
              Hl) as [_ Hwin].
  rewrite Hwin. apply filter_ext. intros page. unfold stillOpen. f_equal.
  apply has_ext. rewrite app_nil_r. symmetry. apply in_rev.
Qed.

Lemma stillOpen_true_iff (history : list Input) (page : Page) :
  stillOpen history page = true <-> ~ In page (closed history).
Proof.
  unfold stillOpen. rewrite negb_true_iff. apply has_false_iff.
Qed.

End HistoryFacts.

(** C9.  When the window set is not empty, [firstWindow] returns at once
    the first page of the set, creates no waiter, and its result depends
    on the window set alone, not on the options, the timeout settings or
    anything that arrives; that first page is the earliest-announced page
    that is still open.  When the window set is empty, [firstWindow] is
    [waitForEvent("window", options)]. *)
Theorem firstWindow_first_open_or_waits
    (Events : Events.Table) (this : ElectronApplication.t)
    (options : option TimeoutSettings.Options)
    (inputs : list ElectronApplication.Input) :
  (forall page rest,
      ElectronApplication._windows this = page :: rest ->
      ElectronApplication.promise
        (ElectronApplication.firstWindow Events this options inputs)
      = Fulfilled (PayloadPage page) /\
      ElectronApplication.waiter
        (ElectronApplication.firstWindow Events this options inputs) = None /\
      forall that options' inputs',
        ElectronApplication._windows that = ElectronApplication._windows this ->
        ElectronApplication.promise
          (ElectronApplication.firstWindow Events that options' inputs')
        = Fulfilled (PayloadPage page)) /\
  (ElectronApplication._windows this = [] ->
   ElectronApplication.firstWindow Events this options inputs
   = ElectronApplication.waitForEvent Events this "window"
       match options with
       | Some o =>
           Some (ElectronApplication.IsObject None
                   (TimeoutSettings.timeout_opt o))
       | None => None
       end
       inputs) /\
  (forall guid platform torn context history,
      ElectronApplication.closedPagesStayClosed [] history = true ->
      this = fst (fst (ElectronApplication.dispatchAll Events history
                         (fst (ElectronApplication.constructor Events guid
                                 platform torn context)))) ->
      PageSet.first (ElectronApplication._windows this)
      = hd_error
          (filter (ElectronApplication.stillOpen history)
             (PageSet.of_list
                (ElectronApplication._pages context ++
                 ElectronApplication.announced history)))).
Proof.
  split; [|split].
  - intros page rest Hw.
    assert (H : forall that options' inputs',
               ElectronApplication._windows that
               = ElectronApplication._windows this ->
               ElectronApplication.firstWindow Events that options' inputs'
               = {| ElectronApplication.promise := Fulfilled (PayloadPage page);
                    ElectronApplication.application :=
                      fst (fst (ElectronApplication.dispatchAll Events inputs'
                                  that));
                    ElectronApplication.waiter := None |}).
    { intros that options' inputs' Hsame.
      unfold ElectronApplication.firstWindow. rewrite Hsame, Hw. reflexivity. }
    split; [|split].
    + rewrite (H this options inputs eq_refl). reflexivity.
    + rewrite (H this options inputs eq_refl). reflexivity.
    + intros that options' inputs' Hsame.
      rewrite (H that options' inputs' Hsame). reflexivity.
  - intros Hw. unfold ElectronApplication.firstWindow. rewrite Hw. reflexivity.
  - intros guid platform torn context history Hl ->.
    rewrite windows_after_history by exact Hl. reflexivity.
Qed.

Lemma firstWindow_first_open_or_waits_witness :
  ElectronApplication.promise
    (ElectronApplication.firstWindow Samples.events Samples.twoWindows None
       [ElectronApplication.Elapse 10])
  = Fulfilled (PayloadPage "page@1") /\
  ElectronApplication.firstWindow Samples.events Samples.noWindows None
    [ElectronApplication.ContextPage "page@7"]
  = ElectronApplication.waitForEvent Samples.events Samples.noWindows "window"
      None [ElectronApplication.ContextPage "page@7"].
Proof.
  split.
  - exact (proj1 (proj1 (firstWindow_first_open_or_waits Samples.events
                    Samples.twoWindows None [ElectronApplication.Elapse 10])
             "page@1" ["page@2"] eq_refl)).
  - apply (proj1 (proj2 (firstWindow_first_open_or_waits Samples.events
                           Samples.noWindows None
                           [ElectronApplication.ContextPage "page@7"]))).
    reflexivity.
Defined.

(** C10.  From its construction on, and as long as the context does not
    announce a page that has already closed, the window set of an
    application holds exactly the pages that were announced (present in
    the context at construction, or delivered by the context's page event)
    and have not emitted their close event, each once and in the order of
    arrival; [windows()] returns exactly these; one window event was
    emitted for each announcement, in order; and each announced page that
    closed left the set exactly once, a page that did not close never. *)
Theorem windows_are_the_open_announced_pages
    (Events : Events.Table) (guid : Guid) (platform : TimeoutSettings.Platform)
    (torn : bool) (context : ElectronApplication.BrowserContext)
    (inputs : list ElectronApplication.Input) :
  ElectronApplication.closedPagesStayClosed [] inputs = true ->
  let created :=
    ElectronApplication.constructor Events guid platform torn context in
  let this :=
    fst (fst (ElectronApplication.dispatchAll Events inputs (fst created))) in
  let emitted :=
    snd created ++
    snd (fst (ElectronApplication.dispatchAll Events inputs (fst created))) in
  let arrivals :=
    ElectronApplication._pages context ++ ElectronApplication.announced inputs in
  (forall page,
      In page (ElectronApplication._windows this) <->
      In page arrivals /\ ~ In page (ElectronApplication.closed inputs)) /\
  NoDup (ElectronApplication._windows this) /\
  (forall page,
      In page (ElectronApplication.windows this) <->
      In page arrivals /\ ~ In page (ElectronApplication.closed inputs)) /\
  ElectronApplication.windows this
  = filter (ElectronApplication.stillOpen inputs) (PageSet.of_list arrivals) /\
  ElectronApplication.windowEvents Events emitted = arrivals /\
  (forall page,
      In page arrivals -> In page (ElectronApplication.closed inputs) ->
      ElectronApplication.removals Events page inputs (fst created) = 1%nat) /\
  (forall page,
      ~ In page (ElectronApplication.closed inputs) ->
      ElectronApplication.removals Events page inputs (fst created) = 0%nat).
Proof.
  intros Hl created this emitted arrivals.
  pose proof (windows_after_history Events guid platform torn context inputs Hl)
    as Hwin.
  fold created in Hwin. fold this in Hwin. fold arrivals in Hwin.
  assert (Hmem : forall page,
             In page (ElectronApplication._windows this) <->
             In page arrivals /\ ~ In page (ElectronApplication.closed inputs)).
  { intros page.
    rewrite Hwin, filter_In, of_list_In, stillOpen_true_iff. tauto. }
  assert (Hrem : forall page,
             ElectronApplication.removals Events page inputs (fst created) =
             if PageSet.has page (ElectronApplication.closed inputs) &&
                negb (PageSet.has page []) &&
                (PageSet.has page (ElectronApplication._pages context) ||
                 PageSet.has page (ElectronApplication.announced inputs))
             then 1%nat else 0%nat).
  { intros page. apply removals_spec; [|exact Hl].
    apply tracks_constructor. }
  split; [exact Hmem|]. split; [|split; [exact Hmem|split; [exact Hwin|split]]].
  - rewrite Hwin. apply NoDup_filter, of_list_NoDup.
  - unfold emitted. rewrite windowEvents_app, windowEvents_dispatchAll.
    unfold created. rewrite constructor_unfold. cbv zeta. cbn [snd].
    rewrite windowEvents_onPages. reflexivity.
  - split.
    + intros page Ha Hc. rewrite Hrem.
      apply has_true_iff in Hc. rewrite Hc.
      unfold arrivals in Ha. apply has_true_iff in Ha. rewrite has_app in Ha.
      rewrite Ha. reflexivity.
    + intros page Hc. rewrite Hrem. apply has_false_iff in Hc. rewrite Hc.
      reflexivity.
Qed.

Lemma windows_are_the_open_announced_pages_witness :
  ElectronApplication.windows
    (fst (fst (ElectronApplication.dispatchAll Samples.events
                 [ElectronApplication.PageClose "page@1";
                  ElectronApplication.ContextPage "page@3";
                  ElectronApplication.PageClose "page@1"]
                 Samples.twoWindows)))
  = ["page@2"; "page@3"] /\
  ElectronApplication.removals Samples.events "page@1"
    [ElectronApplication.PageClose "page@1";
     ElectronApplication.ContextPage "page@3";
     ElectronApplication.PageClose "page@1"]
    Samples.twoWindows = 1%nat.
Proof.
  pose proof (windows_are_the_open_announced_pages Samples.events
                "electron-app@1" Samples.platform false
                {| ElectronApplication.context_guid := "context@1";
                   ElectronApplication._pages := ["page@1"; "page@2"] |}
                [ElectronApplication.PageClose "page@1";
                 ElectronApplication.ContextPage "page@3";
                 ElectronApplication.PageClose "page@1"]
                eq_refl) as H.
  cbv zeta in H. destruct H as (_ & _ & _ & Hw & _ & Hr & _).
  split.
  - exact Hw.
  - apply (Hr "page@1").
    + left. reflexivity.
    + left. reflexivity.
Defined.

(** ** The network filter bar *)

Section NetworkFiltersFacts.

Import NetworkFilters.

Variable widths : NumberRecord.
Variable paneWidth : Z.
Variable availableWidth : Z.

Lemma findMaxVisibleCountFrom_spec (len : nat) :
  forall start visibleCount : nat,
    (findMaxVisibleCountFrom widths paneWidth availableWidth (seq start len)
       visibleCount = visibleCount /\
     (len = 0%nat \/ ~ fits widths paneWidth availableWidth start)) \/
    ((start <=
      findMaxVisibleCountFrom widths paneWidth availableWidth (seq start len)
        visibleCount < start + len)%nat /\
     (forall j,
         (start <= j <=
          findMaxVisibleCountFrom widths paneWidth availableWidth
            (seq start len) visibleCount)%nat -> fits widths paneWidth availableWidth j) /\
     ((S (findMaxVisibleCountFrom widths paneWidth availableWidth
            (seq start len) visibleCount) < start + len)%nat ->
      ~ fits widths paneWidth availableWidth (S (findMaxVisibleCountFrom widths paneWidth availableWidth
                   (seq start len) visibleCount)))).
Proof.
  induction len as [|len IH]; intros start visibleCount.
  - left. split; [reflexivity|left; reflexivity].
  - cbn [seq findMaxVisibleCountFrom].
    destruct (Z.leb_spec
                (calculateTotalWidth widths paneWidth
                   (firstn start allResourceTypes) false) availableWidth)
      as [Hfit|Hno].
    + right.
      destruct (IH (S start) start) as [[Hr Hstop]|(Hrange & Hall & Hnext)].
      * rewrite Hr. split; [lia|]. split.
        -- intros j Hj. assert (j = start) by lia. subst j. exact Hfit.
        -- intros Hlt. destruct Hstop as [Hlen|Hstop]; [lia|exact Hstop].
      * split; [lia|]. split.
        -- intros j Hj. destruct (Nat.eq_dec j start) as [->|Hne];
             [exact Hfit|apply Hall; lia].
        -- intros Hlt. apply Hnext. lia.
    + left. split; [reflexivity|]. right. unfold NetworkFilters.fits. lia.
Qed.

Lemma adjustLoop_spec (visibleCount : nat) :
  (adjustLoop widths paneWidth availableWidth visibleCount <= visibleCount)%nat
  /\
  (adjustLoop widths paneWidth availableWidth visibleCount = 0%nat \/
   fitsWithDropdown widths paneWidth availableWidth (adjustLoop widths paneWidth availableWidth visibleCount))
  /\
  (forall k,
      (adjustLoop widths paneWidth availableWidth visibleCount < k
       <= visibleCount)%nat -> ~ fitsWithDropdown widths paneWidth availableWidth k).
Proof.
  induction visibleCount as [|fewer IH].
  - simpl. split; [lia|]. split; [left; reflexivity|]. intros k Hk. lia.
  - cbn [adjustLoop].
    destruct (Z.leb_spec
                (calculateTotalWidth widths paneWidth
                   (firstn (S fewer) allResourceTypes) true) availableWidth)
      as [Hfit|Hno].
    + split; [lia|]. split; [right; exact Hfit|]. intros k Hk. lia.
    + destruct IH as (Hle & Hfits & Hrej).
      split; [lia|]. split; [exact Hfits|].
      intros k Hk. destruct (Nat.eq_dec k (S fewer)) as [->|Hne].
      * unfold NetworkFilters.fitsWithDropdown. lia.
      * apply Hrej. lia.
Qed.

Lemma calculateTotalWidth_dropdown (types : list ResourceType) :
  calculateTotalWidth widths paneWidth types true =
  calculateTotalWidth widths paneWidth types false + paneWidth.
Proof.
  unfold calculateTotalWidth, RESOURCE_TYPE_GAP. lia.
Qed.

Lemma calculateTotalWidth_nil :
  calculateTotalWidth widths paneWidth [] false = 0.
Proof. reflexivity. Qed.

Lemma fold_left_sum_shift (types : list ResourceType) (a : Z) :
  fold_left (fun sum type => sum + widthOf widths type) types a =
  a + fold_left (fun sum type => sum + widthOf widths type) types 0.
Proof.
  revert a. induction types as [|t rest IH]; intros a; simpl; [lia|].
  rewrite IH, (IH (widthOf widths t)). lia.
Qed.

Lemma calculateTotalWidth_sum (types : list ResourceType) :
  calculateTotalWidth widths paneWidth types false =
  fold_left (fun sum type => sum + widthOf widths type) types 0.
Proof.
  unfold calculateTotalWidth, RESOURCE_TYPE_GAP. lia.
Qed.

Lemma sum_nonnegative (types : list ResourceType) :
  (forall t, 0 <= widthOf widths t) ->
  0 <= fold_left (fun sum type => sum + widthOf widths type) types 0.
Proof.
  intros Hpos. induction types as [|t l IHl]; simpl; [lia|].
  rewrite fold_left_sum_shift. specialize (Hpos t). lia.
Qed.

(** With no negative width, a prefix is never wider than the whole. *)
Lemma calculateTotalWidth_prefix (i : nat) (types : list ResourceType) :
  (forall t, 0 <= widthOf widths t) ->
  calculateTotalWidth widths paneWidth (firstn i types) false <=
  calculateTotalWidth widths paneWidth types false.
Proof.
  intros Hpos. rewrite !calculateTotalWidth_sum.
  pose proof (firstn_skipn i types) as Hsplit.
  rewrite <- Hsplit at 2. rewrite fold_left_app.
  rewrite (fold_left_sum_shift (skipn i types)
             (fold_left (fun sum type => sum + widthOf widths type)
                        (firstn i types) 0)).
  pose proof (sum_nonnegative (skipn i types) Hpos). lia.
Qed.

End NetworkFiltersFacts.

Section NetworkFiltersLayout.

Import NetworkFilters.

Lemma findMaxVisibleCount_spec (widths : NumberRecord)
    (paneWidth availableWidth : Z) :
  0 <= availableWidth ->
  (findMaxVisibleCount widths paneWidth availableWidth
   <= List.length allResourceTypes)%nat /\
  (forall j,
      (j <= findMaxVisibleCount widths paneWidth availableWidth)%nat ->
      fits widths paneWidth availableWidth j) /\
  ((findMaxVisibleCount widths paneWidth availableWidth
    < List.length allResourceTypes)%nat ->
   ~ fits widths paneWidth availableWidth
       (S (findMaxVisibleCount widths paneWidth availableWidth))).
Proof.
  intros Havail. unfold findMaxVisibleCount.
  destruct (findMaxVisibleCountFrom_spec widths paneWidth availableWidth
              (S (List.length allResourceTypes)) 0 0)
    as [[_ [Hlen|Hno]]|(Hrange & Hall & Hnext)].
  - discriminate.
  - exfalso. apply Hno. unfold fits. cbn [firstn].
    rewrite calculateTotalWidth_nil. exact Havail.
  - split; [lia|]. split.
    + intros j Hj. apply Hall. lia.
    + intros Hlt. apply Hnext. lia.
Qed.

Lemma settledCount_spec (widths : NumberRecord)
    (paneWidth availableWidth : Z) :
  0 <= availableWidth ->
  let c := settledCount widths paneWidth availableWidth in
  (c <= List.length allResourceTypes)%nat /\
  ((List.length allResourceTypes <= c)%nat ->
   fits widths paneWidth availableWidth c) /\
  ((c < List.length allResourceTypes)%nat ->
   c = 0%nat \/ fitsWithDropdown widths paneWidth availableWidth c) /\
  ((c < List.length allResourceTypes)%nat -> 0 <= paneWidth ->
   ~ fitsWithDropdown widths paneWidth availableWidth (S c) /\
   (S c = List.length allResourceTypes ->
    ~ fits widths paneWidth availableWidth (S c))).
Proof.
  intros Havail c.
  destruct (findMaxVisibleCount_spec widths paneWidth availableWidth Havail)
    as (Hle & Hall & Hnext).
  unfold c, settledCount, adjustForDropdown.
  set (m := findMaxVisibleCount widths paneWidth availableWidth) in *.
  destruct (Nat.leb_spec (List.length allResourceTypes) m) as [Hfull|Hpart].
  - split; [lia|]. split; [intros _; apply Hall; lia|].
    split; intros Hlt; lia.
  - destruct (adjustLoop_spec widths paneWidth availableWidth m)
      as (Hadj & Hfit & Hrej).
    set (r := adjustLoop widths paneWidth availableWidth m) in *.
    split; [lia|]. split; [intros Hge; lia|]. split; [intros _; exact Hfit|].
    intros _ Hpane.
    destruct (Nat.eq_dec r m) as [Heq|Hne].
    + assert (Hno : ~ fits widths paneWidth availableWidth (S r))
        by (rewrite Heq; apply Hnext; exact Hpart).
      split; [|intros _; exact Hno].
      unfold fitsWithDropdown, fits in *.
      rewrite calculateTotalWidth_dropdown. lia.
    + split; [apply Hrej; lia|]. intros Hlast. lia.
Qed.

Lemma redistributeElements_settled (dom : Dom) (s : State) :
  0 < getAvailableSpace dom ->
  elementWidths s <> [] ->
  redistributeElements dom s =
  {| visibleResourceTypes :=
       firstn (settledCount (elementWidths s) (tabbedPaneWidth s)
                 (getAvailableSpace dom)) allResourceTypes;
     overflowResourceTypes :=
       skipn (settledCount (elementWidths s) (tabbedPaneWidth s)
                (getAvailableSpace dom)) allResourceTypes;
     elementWidths := elementWidths s;
     tabbedPaneWidth := tabbedPaneWidth s |}.
Proof.
  intros Havail Hmeasured. unfold redistributeElements.
  destruct (Z.leb_spec (getAvailableSpace dom) 0) as [Hle|_]; [lia|].
  destruct (elementWidths s) as [|kv rest]; [congruence|]. reflexivity.
Qed.

Lemma redistributeElements_unchanged (dom : Dom) (s : State) :
  getAvailableSpace dom <= 0 \/ elementWidths s = [] ->
  redistributeElements dom s = s.
Proof.
  intros [Hle|Hnone]; unfold redistributeElements.
  - destruct (Z.leb_spec (getAvailableSpace dom) 0); [reflexivity|lia].
  - rewrite Hnone. rewrite orb_true_r. reflexivity.
Qed.

(** No entry of a measured record is negative. *)
Lemma recordSet_nonnegative (key : string) (value : Z) (r : NumberRecord) :
  0 <= value ->
  Forall (fun kv => 0 <= snd kv) r ->
  Forall (fun kv => 0 <= snd kv) (recordSet key value r).
Proof.
  intros Hv Hr. induction Hr as [|[k v] rest Hkv Hrest IH]; simpl.
  - constructor; [exact Hv|constructor].
  - destruct (String.eqb k key); constructor; auto.
Qed.

Lemma widthOf_nonnegative (r : NumberRecord) (type : ResourceType) :
  Forall (fun kv => 0 <= snd kv) r -> 0 <= widthOf r type.
Proof.
  intros Hr. unfold widthOf.
  induction Hr as [|[k v] rest Hkv Hrest IH]; simpl; [lia|].
  destruct (String.eqb k type); [exact Hkv|exact IH].
Qed.

Lemma measureElement_at_least (dom : Dom) (className content : string)
    (minWidth : Z) :
  minWidth <= measureElement dom className content minWidth.
Proof.
  unfold measureElement. destruct (measurementRef dom); simpl; lia.
Qed.

Lemma measured_widths_nonnegative (dom : Dom) (types : list ResourceType)
    (r : NumberRecord) :
  Forall (fun kv => 0 <= snd kv) r ->
  Forall (fun kv => 0 <= snd kv)
    (fold_left
       (fun widths resourceType =>
          recordSet resourceType
            (measureElement dom "network-filters-resource-type"
               resourceType 0) widths)
       types r).
Proof.
  revert r. induction types as [|t rest IH]; intros r Hr; simpl; [exact Hr|].
  apply IH, recordSet_nonnegative; [apply measureElement_at_least|exact Hr].
Qed.

(** What every step of the component keeps. *)
Lemma step_keeps (e : Event) (s : State) :
  (exists c,
      visibleResourceTypes s = firstn c allResourceTypes /\
      (overflowResourceTypes s = skipn c allResourceTypes \/
       overflowResourceTypes s = rev (skipn c allResourceTypes))) /\
  80 <= tabbedPaneWidth s /\
  Forall (fun kv => 0 <= snd kv) (elementWidths s) ->
  (exists c,
      visibleResourceTypes (step e s) = firstn c allResourceTypes /\
      (overflowResourceTypes (step e s) = skipn c allResourceTypes \/
       overflowResourceTypes (step e s) = rev (skipn c allResourceTypes))) /\
  80 <= tabbedPaneWidth (step e s) /\
  Forall (fun kv => 0 <= snd kv) (elementWidths (step e s)).
Proof.
  intros ((c & Hv & Ho) & Hp & Hw).
  destruct e as [dom|dom|filterState]; cbn [step].
  - unfold measureAllWidths. destruct (measurementRef dom) eqn:Href;
      cbn [negb visibleResourceTypes overflowResourceTypes elementWidths
           tabbedPaneWidth].
    + split; [exists c; auto|]. split.
      * apply (measureElement_at_least dom "tabbed-pane" "•••" 80).
      * apply measured_widths_nonnegative. constructor.
    + split; [exists c; auto|]. auto.
  - unfold redistributeElements.
    destruct ((getAvailableSpace dom <=? 0) ||
              Nat.eqb (List.length (recordKeys (elementWidths s))) 0).
    + split; [exists c; auto|]. auto.
    + simpl. split; [|auto]. eexists. split; [reflexivity|left; reflexivity].
  - unfold render.
    destruct (Nat.ltb 0 (List.length (overflowResourceTypes s))); simpl.
    + split; [|auto]. exists c. split; [exact Hv|].
      destruct Ho as [Ho|Ho]; rewrite Ho; [right; reflexivity|].
      left. apply rev_involutive.
    + split; [exists c; auto|]. auto.
Qed.

Lemma run_keeps (events : list Event) (s : State) :
  (exists c,
      visibleResourceTypes s = firstn c allResourceTypes /\
      (overflowResourceTypes s = skipn c allResourceTypes \/
       overflowResourceTypes s = rev (skipn c allResourceTypes))) /\
  80 <= tabbedPaneWidth s /\
  Forall (fun kv => 0 <= snd kv) (elementWidths s) ->
  (exists c,
      visibleResourceTypes (run events s) = firstn c allResourceTypes /\
      (overflowResourceTypes (run events s) = skipn c allResourceTypes \/
       overflowResourceTypes (run events s)
       = rev (skipn c allResourceTypes))) /\
  80 <= tabbedPaneWidth (run events s) /\
  Forall (fun kv => 0 <= snd kv) (elementWidths (run events s)).
Proof.
  revert s. induction events as [|e rest IH]; intros s H; [exact H|].
  cbn [run fold_left]. apply (IH (step e s)), step_keeps, H.
Qed.

Lemma initialState_keeps :
  (exists c,
      visibleResourceTypes initialState = firstn c allResourceTypes /\
      (overflowResourceTypes initialState = skipn c allResourceTypes \/
       overflowResourceTypes initialState = rev (skipn c allResourceTypes))) /\
  80 <= tabbedPaneWidth initialState /\
  Forall (fun kv => 0 <= snd kv) (elementWidths initialState).
Proof.
  split; [|split; [simpl; lia|constructor]].
  exists (List.length allResourceTypes). split; [reflexivity|].
  left. reflexivity.
Qed.

End NetworkFiltersLayout.

Section NetworkFiltersCounts.

Import NetworkFilters.

Lemma firstn_snoc_skipn {A : Type} (c : nat) (l rest : list A) (x : A) :
  skipn c l = x :: rest -> firstn (S c) l = firstn c l ++ [x].
Proof.
  revert l. induction c as [|c IH]; intros l H.
  - simpl in H. subst l. reflexivity.
  - destruct l as [|y l]; [discriminate|]. simpl in H.
    change (firstn (S (S c)) (y :: l)) with (y :: firstn (S c) l).
    rewrite (IH l H). reflexivity.
Qed.






Lemma settledCount_all (widths : NumberRecord) (paneWidth availableWidth : Z) :
  0 <= availableWidth ->
  (forall t, 0 <= widthOf widths t) ->
  calculateTotalWidth widths paneWidth allResourceTypes false
  <= availableWidth ->
  settledCount widths paneWidth availableWidth = List.length allResourceTypes.
Proof.
  intros H0 Hpos Hroom.
  destruct (findMaxVisibleCount_spec widths paneWidth availableWidth H0)
    as (Hn & _ & Hnext).
  unfold settledCount, adjustForDropdown.
  set (m := findMaxVisibleCount widths paneWidth availableWidth) in *.
  destruct (Nat.leb_spec (List.length allResourceTypes) m) as [Hfull|Hpart];
    [lia|].
  exfalso. apply (Hnext Hpart). unfold fits.
  pose proof (calculateTotalWidth_prefix widths paneWidth (S m)
                allResourceTypes Hpos). lia.
Qed.

End NetworkFiltersCounts.

(** X1.  Whatever is measured, redistributed or rendered, and in whatever
    order, every resource type is on screen exactly once: the visible
    buttons are a prefix of the list of types and, together with the
    types of the overflow dropdown, a permutation of it. *)
Theorem networkFilters_every_type_shown_once
    (events : list NetworkFilters.Event) :
  let s := NetworkFilters.run events NetworkFilters.initialState in
  Permutation
    (NetworkFilters.visibleResourceTypes s ++
     NetworkFilters.overflowResourceTypes s)
    NetworkFilters.resourceTypes /\
  exists c,
    NetworkFilters.visibleResourceTypes s
    = firstn c NetworkFilters.resourceTypes.
Proof.
  intros s.
  destruct (run_keeps events _ initialState_keeps) as ((c & Hv & Ho) & _).
  fold s in Hv, Ho. split; [|exists c; exact Hv].
  rewrite Hv. destruct Ho as [Ho|Ho]; rewrite Ho.
  - rewrite firstn_skipn. apply Permutation_refl.
  - apply Permutation_trans
      with (firstn c NetworkFilters.allResourceTypes ++
            skipn c NetworkFilters.allResourceTypes).
    + apply Permutation_app_head, Permutation_sym, Permutation_rev.
    + rewrite firstn_skipn. apply Permutation_refl.
Qed.

(** X2.  Whatever widths the document reports, the widths the component
    works with are never negative and the width it reserves for the
    dropdown is never below 80. *)
Theorem networkFilters_measurements_bounded
    (events : list NetworkFilters.Event) :
  let s := NetworkFilters.run events NetworkFilters.initialState in
  80 <= NetworkFilters.tabbedPaneWidth s /\
  forall type,
    0 <= NetworkFilters.widthOf (NetworkFilters.elementWidths s) type.
Proof.
  intros s.
  destruct (run_keeps events _ initialState_keeps) as (_ & Hp & Hw).
  split; [exact Hp|]. intros type. apply widthOf_nonnegative, Hw.
Qed.

(** X3.  After a redistribution that took place (positive available
    width, widths measured), what is shown fits: the visible buttons, plus
    the dropdown when some type overflows, are not wider than the
    available width, unless no button is visible at all. *)
Theorem redistributeElements_fits
    (dom : NetworkFilters.Dom) (s : NetworkFilters.State) :
  0 < NetworkFilters.getAvailableSpace dom ->
  NetworkFilters.elementWidths s <> [] ->
  let s' := NetworkFilters.redistributeElements dom s in
  NetworkFilters.visibleResourceTypes s' = [] \/
  NetworkFilters.calculateTotalWidth
    (NetworkFilters.elementWidths s') (NetworkFilters.tabbedPaneWidth s')
    (NetworkFilters.visibleResourceTypes s')
    (negb (Nat.eqb (List.length (NetworkFilters.overflowResourceTypes s')) 0))
  <= NetworkFilters.getAvailableSpace dom.
Proof.
  intros Havail Hmeasured s'. unfold s'.
  rewrite redistributeElements_settled by assumption.
  cbn [NetworkFilters.visibleResourceTypes NetworkFilters.elementWidths
       NetworkFilters.overflowResourceTypes NetworkFilters.tabbedPaneWidth].
  destruct (settledCount_spec (NetworkFilters.elementWidths s)
              (NetworkFilters.tabbedPaneWidth s)
              (NetworkFilters.getAvailableSpace dom) ltac:(lia))
    as (Hn & Hfull & Hpart & _).
  set (c := NetworkFilters.settledCount _ _ _) in *.
  rewrite length_skipn.
  destruct (Nat.le_gt_cases (List.length NetworkFilters.allResourceTypes) c)
    as [Hge|Hlt].
  - right. replace (List.length NetworkFilters.allResourceTypes - c)%nat
      with 0%nat by lia.
    exact (Hfull Hge).
  - destruct (Hpart Hlt) as [Hzero|Hfit].
    + left. rewrite Hzero. reflexivity.
    + right.
      destruct (List.length NetworkFilters.allResourceTypes - c)%nat eqn:E;
        [lia|exact Hfit].
Qed.

Lemma redistributeElements_fits_witness :
  let dom :=
    {| NetworkFilters.measurementRef := true;
       NetworkFilters.offsetWidthOf := fun _ _ => 50;
       NetworkFilters.containerOffsetWidth := Some 400;
       NetworkFilters.inputOffsetWidth := Some 150 |} in
  let s' :=
    NetworkFilters.redistributeElements dom
      (NetworkFilters.measureAllWidths dom NetworkFilters.initialState) in
  NetworkFilters.visibleResourceTypes s' = [] \/
  NetworkFilters.calculateTotalWidth
    (NetworkFilters.elementWidths s') (NetworkFilters.tabbedPaneWidth s')
    (NetworkFilters.visibleResourceTypes s')
    (negb (Nat.eqb (List.length (NetworkFilters.overflowResourceTypes s')) 0))
  <= NetworkFilters.getAvailableSpace dom.
Proof.
  intros dom.
  apply (redistributeElements_fits dom
           (NetworkFilters.measureAllWidths dom NetworkFilters.initialState)).
  - reflexivity.
  - discriminate.
Defined.

(** X4.  A redistribution hides no more than it must: when some type
    overflows, the visible buttons with the first overflowing type added
    would not fit beside the dropdown; and when that type is the only one
    overflowing, it would not fit even without the dropdown. *)
Theorem redistributeElements_maximal
    (events : list NetworkFilters.Event) (dom : NetworkFilters.Dom)
    (type : NetworkFilters.ResourceType)
    (rest : list NetworkFilters.ResourceType) :
  let s := NetworkFilters.run events NetworkFilters.initialState in
  let s' := NetworkFilters.redistributeElements dom s in
  0 < NetworkFilters.getAvailableSpace dom ->
  NetworkFilters.elementWidths s <> [] ->
  NetworkFilters.overflowResourceTypes s' = type :: rest ->
  NetworkFilters.getAvailableSpace dom <
  NetworkFilters.calculateTotalWidth
    (NetworkFilters.elementWidths s') (NetworkFilters.tabbedPaneWidth s')
    (NetworkFilters.visibleResourceTypes s' ++ [type]) true /\
  (rest = [] ->
   NetworkFilters.getAvailableSpace dom <
   NetworkFilters.calculateTotalWidth
     (NetworkFilters.elementWidths s') (NetworkFilters.tabbedPaneWidth s')
     (NetworkFilters.visibleResourceTypes s' ++ [type]) false).
Proof.
  intros s s' Havail Hmeasured. unfold s'.
  rewrite redistributeElements_settled by assumption.
  cbn [NetworkFilters.visibleResourceTypes NetworkFilters.elementWidths
       NetworkFilters.overflowResourceTypes NetworkFilters.tabbedPaneWidth].
  intros Hover.
  destruct (run_keeps events _ initialState_keeps) as (_ & Hp & _).
  fold s in Hp.
  destruct (settledCount_spec (NetworkFilters.elementWidths s)
              (NetworkFilters.tabbedPaneWidth s)
              (NetworkFilters.getAvailableSpace dom) ltac:(lia))
    as (Hn & _ & _ & Hmax).
  set (c := NetworkFilters.settledCount _ _ _) in *.
  pose proof (f_equal (@List.length _) Hover) as Hlen.
  rewrite length_skipn in Hlen. cbn [List.length] in Hlen.
  destruct (Hmax ltac:(lia) ltac:(lia)) as [Hno Hlast].
  rewrite <- (firstn_snoc_skipn c _ rest type Hover).
  unfold NetworkFilters.fitsWithDropdown, NetworkFilters.fits in *.
  split; [lia|]. intros ->. cbn [List.length] in Hlen.
  specialize (Hlast ltac:(lia)). lia.
Qed.

Lemma redistributeElements_maximal_witness :
  let dom :=
    {| NetworkFilters.measurementRef := true;
       NetworkFilters.offsetWidthOf := fun _ _ => 50;
       NetworkFilters.containerOffsetWidth := Some 400;
       NetworkFilters.inputOffsetWidth := Some 150 |} in
  let s' :=
    NetworkFilters.redistributeElements dom
      (NetworkFilters.run [NetworkFilters.Measure dom]
         NetworkFilters.initialState) in
  NetworkFilters.getAvailableSpace dom <
  NetworkFilters.calculateTotalWidth
    (NetworkFilters.elementWidths s') (NetworkFilters.tabbedPaneWidth s')
    (NetworkFilters.visibleResourceTypes s' ++ ["JS"]) true.
Proof.
  intros dom.
  apply (redistributeElements_maximal [NetworkFilters.Measure dom] dom
           "JS" ["CSS"; "Font"; "Image"]).
  - reflexivity.
  - discriminate.
  - reflexivity.
Defined.

(** X5.  When all the types fit in the available width, a redistribution
    makes every type a visible button and leaves nothing for the
    dropdown. *)
Theorem redistributeElements_shows_all_when_room
    (events : list NetworkFilters.Event) (dom : NetworkFilters.Dom) :
  let s := NetworkFilters.run events NetworkFilters.initialState in
  let s' := NetworkFilters.redistributeElements dom s in
  0 < NetworkFilters.getAvailableSpace dom ->
  NetworkFilters.elementWidths s <> [] ->
  NetworkFilters.calculateTotalWidth
    (NetworkFilters.elementWidths s) (NetworkFilters.tabbedPaneWidth s)
    NetworkFilters.resourceTypes false
  <= NetworkFilters.getAvailableSpace dom ->
  NetworkFilters.visibleResourceTypes s' = NetworkFilters.resourceTypes /\
  NetworkFilters.overflowResourceTypes s' = [].
Proof.
  intros s s' Havail Hmeasured Hroom. unfold s'.
  rewrite redistributeElements_settled by assumption.
  cbn [NetworkFilters.visibleResourceTypes
       NetworkFilters.overflowResourceTypes].
  destruct (run_keeps events _ initialState_keeps) as (_ & _ & Hw).
  fold s in Hw.
  rewrite (settledCount_all (NetworkFilters.elementWidths s)
             (NetworkFilters.tabbedPaneWidth s)
             (NetworkFilters.getAvailableSpace dom) ltac:(lia)
             (fun t => widthOf_nonnegative _ t Hw) Hroom).
  split; [apply firstn_all|apply skipn_all].
Qed.

Lemma redistributeElements_shows_all_when_room_witness :
  let dom :=
    {| NetworkFilters.measurementRef := true;
       NetworkFilters.offsetWidthOf := fun _ _ => 50;
       NetworkFilters.containerOffsetWidth := Some 600;
       NetworkFilters.inputOffsetWidth := Some 150 |} in
  let s' :=
    NetworkFilters.redistributeElements dom
      (NetworkFilters.run [NetworkFilters.Measure dom]
         NetworkFilters.initialState) in
  NetworkFilters.visibleResourceTypes s' = NetworkFilters.resourceTypes /\
  NetworkFilters.overflowResourceTypes s' = [].
Proof.
  intros dom.
  apply (redistributeElements_shows_all_when_room
           [NetworkFilters.Measure dom] dom).
  - reflexivity.
  - discriminate.
  - vm_compute. discriminate.
Defined.



(** X7.  Redistributing twice against the same document is the same as
    redistributing once: the layout a redistribution settles on is
    stable. *)
Theorem redistributeElements_idempotent
    (dom : NetworkFilters.Dom) (s : NetworkFilters.State) :
  NetworkFilters.redistributeElements dom
    (NetworkFilters.redistributeElements dom s)
  = NetworkFilters.redistributeElements dom s.
Proof.
  destruct (Z.leb_spec (NetworkFilters.getAvailableSpace dom) 0) as [Hle|Hgt].
  - rewrite !redistributeElements_unchanged by (left; exact Hle). reflexivity.
  - destruct (NetworkFilters.elementWidths s) as [|kv rest] eqn:Hw.
    + rewrite (redistributeElements_unchanged dom s (or_intror Hw)).
      apply redistributeElements_unchanged. right. exact Hw.
    + assert (Hne : NetworkFilters.elementWidths s <> [])
        by (rewrite Hw; discriminate).
      rewrite (redistributeElements_settled dom s Hgt Hne).
      rewrite redistributeElements_settled;
        [reflexivity|exact Hgt|exact Hne].
Qed.

(** X8.  A render lists the types of the overflow dropdown in the reverse
    of the stored order and, the reversal being done in place, leaves the
    reversed list in the state; the visible buttons are not touched, and
    a second render puts the stored list back. *)
Theorem render_reverses_overflow_in_place
    (filterState filterState' : NetworkFilters.FilterState)
    (s : NetworkFilters.State) :
  NetworkFilters.dropdownTabs (fst (NetworkFilters.render filterState s))
  = match NetworkFilters.overflowResourceTypes s with
    | [] => None
    | overflow => Some (rev overflow)
    end /\
  NetworkFilters.overflowResourceTypes
    (snd (NetworkFilters.render filterState s))
  = rev (NetworkFilters.overflowResourceTypes s) /\
  NetworkFilters.visibleResourceTypes
    (snd (NetworkFilters.render filterState s))
  = NetworkFilters.visibleResourceTypes s /\
  snd (NetworkFilters.render filterState'
         (snd (NetworkFilters.render filterState s))) = s.
Proof.
  destruct s as [visible overflow widths pane].
  unfold NetworkFilters.render.
  cbn [NetworkFilters.overflowResourceTypes
       NetworkFilters.visibleResourceTypes NetworkFilters.elementWidths
       NetworkFilters.tabbedPaneWidth].
  destruct overflow as [|t rest].
  - repeat split.
  - cbn [List.length Nat.ltb Nat.leb fst snd NetworkFilters.dropdownTabs
         NetworkFilters.overflowResourceTypes
         NetworkFilters.visibleResourceTypes NetworkFilters.elementWidths
         NetworkFilters.tabbedPaneWidth].
    rewrite length_rev. cbn [List.length Nat.ltb Nat.leb snd].
    rewrite rev_involutive. repeat split.
Qed.

(** ** The workbench *)

Section WorkbenchFacts.

Import Workbench.

Lemma selectPropertiesTab_inspecting (tab : string) (s : State) :
  (isInspecting s = true -> selectedPropertiesTab s = "inspector") ->
  isInspecting (selectPropertiesTab tab s) = true ->
  selectedPropertiesTab (selectPropertiesTab tab s) = "inspector".
Proof.
  intros _. unfold selectPropertiesTab.
  destruct (String.eqb tab "inspector") eqn:E; simpl.
  - intros _. apply String.eqb_eq, E.
  - discriminate.
Qed.

Lemma selectPropertiesTab_inspector (s : State) :
  selectedPropertiesTab (selectPropertiesTab "inspector" s) = "inspector".
Proof. reflexivity. Qed.

Lemma step_inspecting (e : Event) (s : State) :
  (isInspecting s = true -> selectedPropertiesTab s = "inspector") ->
  isInspecting (step e s) = true ->
  selectedPropertiesTab (step e s) = "inspector".
Proof.
  intros Inv.
  destruct e; cbn [step]; try exact Inv.
  - apply selectPropertiesTab_inspecting, Inv.
  - unfold setIsInspecting.
    destruct (isInspecting s) eqn:Hi; destruct value; cbn [negb andb];
      try (simpl; discriminate).
    + simpl. intros _. exact (Inv eq_refl).
    + intros _. reflexivity.
  - intros _. reflexivity.
  - unfold revealAttachment. simpl. discriminate.
  - unfold revealInSource. apply selectPropertiesTab_inspecting.
    destruct (error_action error); exact Inv.
  - unfold onRevealSource. destruct revealSource; [|exact Inv].
    apply selectPropertiesTab_inspecting, Inv.
Qed.

Lemma run_inspecting (events : list Event) (s : State) :
  (isInspecting s = true -> selectedPropertiesTab s = "inspector") ->
  isInspecting (run events s) = true ->
  selectedPropertiesTab (run events s) = "inspector".
Proof.
  revert s. induction events as [|e rest IH]; intros s Inv; [exact Inv|].
  cbn [run fold_left]. apply (IH (step e s)), step_inspecting, Inv.
Qed.

Lemma afterHooksLoop_bound (rest : list Action) :
  forall i index : nat,
    (index < i + List.length rest)%nat ->
    (afterHooksLoop rest i index < i + List.length rest)%nat.
Proof.
  induction rest as [|a rest IH]; intros i index H; cbn [afterHooksLoop].
  - exact H.
  - cbn [List.length] in *.
    destruct (String.eqb (title a) "After Hooks" && negb (Nat.eqb i 0)) eqn:E.
    + apply andb_true_iff in E as [_ E].
      apply negb_true_iff, Nat.eqb_neq in E. lia.
    + specialize (IH (S i) index). lia.
Qed.

(** With no After Hooks item from index 1 on, the loop keeps the index it
    started with. *)
Lemma afterHooksLoop_none (rest : list Action) :
  forall i index : nat,
    (forall a, In a rest -> title a <> "After Hooks") ->
    afterHooksLoop rest i index = index.
Proof.
  induction rest as [|a rest IH]; intros i index H; cbn [afterHooksLoop];
    [reflexivity|].
  assert (E : String.eqb (title a) "After Hooks" = false)
    by (apply String.eqb_neq, H; left; reflexivity).
  rewrite E. cbn [andb]. apply IH. intros x Hx. apply H. right. exact Hx.
Qed.

(** The loop stops at the first After Hooks item met at an index other
    than 0. *)
Lemma afterHooksLoop_first (before after : list Action) (hooks : Action) :
  forall i index : nat,
    (0 < i)%nat ->
    (forall a, In a before -> title a <> "After Hooks") ->
    title hooks = "After Hooks" ->
    afterHooksLoop (before ++ hooks :: after) i index
    = (i + List.length before - 1)%nat.
Proof.
  induction before as [|a before IH]; intros i index Hi Hnone Hhooks.
  - cbn [app afterHooksLoop List.length]. rewrite Hhooks, String.eqb_refl.
    destruct (Nat.eqb_spec i 0) as [->|_]; [lia|]. cbn [andb negb]. lia.
  - cbn [app afterHooksLoop List.length].
    assert (E : String.eqb (title a) "After Hooks" = false)
      by (apply String.eqb_neq, Hnone; left; reflexivity).
    rewrite E. cbn [andb].
    rewrite (IH (S i) index); [lia|lia| |exact Hhooks].
    intros x Hx. apply Hnone. right. exact Hx.
Qed.

Lemma afterHooksLoop_head (first : Action) (rest : list Action) (index : nat) :
  afterHooksLoop (first :: rest) 0 index = afterHooksLoop rest 1 index.
Proof.
  cbn [afterHooksLoop Nat.eqb negb]. rewrite andb_false_r. reflexivity.
Qed.

End WorkbenchFacts.

(** X9.  Inspecting mode is only ever on while the Locator tab is the
    selected properties tab: whatever the stored tab setting and whatever
    sequence of selections, highlights, reveals and picks, if
    [isInspecting] is true then the selected tab is the inspector tab. *)
Theorem inspecting_only_on_inspector_tab
    (storedPropertiesTab : option string) (showSourcesFirst : bool)
    (events : list Workbench.Event) :
  let s :=
    Workbench.run events
      (Workbench.initialState storedPropertiesTab showSourcesFirst) in
  Workbench.isInspecting s = true ->
  Workbench.selectedPropertiesTab s = "inspector".
Proof.
  intros s. apply run_inspecting. simpl. discriminate.
Qed.

Lemma inspecting_only_on_inspector_tab_witness :
  Workbench.selectedPropertiesTab
    (Workbench.run
       [Workbench.RevealAttachment "trace.zip";
        Workbench.SetIsInspecting true;
        Workbench.SetHighlightedElement {| Workbench.lastEdited := "locator" |}]
       (Workbench.initialState (Some "network") false))
  = "inspector".
Proof.
  apply (inspecting_only_on_inspector_tab (Some "network") false
           [Workbench.RevealAttachment "trace.zip";
            Workbench.SetIsInspecting true;
            Workbench.SetHighlightedElement
              {| Workbench.lastEdited := "locator" |}]).
  reflexivity.
Defined.

(** X10.  The selected action always comes from the model: it is one of
    the model's actions or the model's failed action, and there is none
    without a model.  And whenever the model has at least one action,
    some action is selected. *)
Theorem selectedAction_comes_from_model
    (model : option Workbench.Model) (s : Workbench.State) :
  (forall a,
      Workbench.selectedAction model s = Some a ->
      exists m, model = Some m /\
                (In a (Workbench.actions m) \/
                 Workbench.failedAction m = Some a)) /\
  (forall m,
      model = Some m -> Workbench.actions m <> [] ->
      Workbench.selectedAction model s <> None).
Proof.
  unfold Workbench.selectedAction. split.
  - intros a.
    destruct model as [m|].
    + intros H. exists m. split; [reflexivity|].
      destruct (match Workbench.selectedCallId s with
                | Some id =>
                    if negb (String.eqb id "")
                    then Workbench.findByCallId (Some m) (Some id)
                    else None
                | None => None
                end) as [found|] eqn:Hid.
      * injection H as <-. left.
        destruct (Workbench.selectedCallId s) as [id|]; [|discriminate].
        destruct (negb (String.eqb id "")); [|discriminate].
        apply find_some in Hid. exact (proj1 Hid).
      * destruct (Workbench.failedAction m) as [failed|].
        -- injection H as <-. right. reflexivity.
        -- destruct (negb (Nat.eqb (List.length (Workbench.actions m)) 0));
             [|discriminate].
           left. apply nth_error_In in H. exact H.
    + destruct (Workbench.selectedCallId s) as [id|];
        [destruct (negb (String.eqb id ""))|]; discriminate.
  - intros m -> Hne.
    destruct (match Workbench.selectedCallId s with
              | Some id =>
                  if negb (String.eqb id "")
                  then Workbench.findByCallId (Some m) (Some id)
                  else None
              | None => None
              end); [discriminate|].
    destruct (Workbench.failedAction m); [discriminate|].
    destruct (Workbench.actions m) as [|a rest] eqn:Ha; [congruence|].
    cbn [List.length Nat.eqb negb].
    pose proof (afterHooksLoop_bound (a :: rest) 0
                  (S (List.length rest) - 1)) as Hb.
    cbn [List.length] in Hb. specialize (Hb ltac:(lia)).
    intros Hnone. apply nth_error_None in Hnone. cbn [List.length] in Hnone.
    lia.
Qed.

Lemma selectedAction_comes_from_model_witness :
  Workbench.selectedAction
    (Some {| Workbench.actions :=
               [{| Workbench.callId := "call@1";
                   Workbench.title := "page.goto";
                   Workbench.stack := None |}];
             Workbench.failedAction := None |})
    (Workbench.initialState None false)
  <> None.
Proof.
  apply (proj2 (selectedAction_comes_from_model _ _) _ eq_refl).
  discriminate.
Defined.

(** X11.  The default selection.  With no call id selected that matches
    an action and no failed action, the selected action is the one just
    before the first After Hooks item found at an index other than 0; an
    After Hooks item at index 0 does not count.  Without such an item it
    is the last action. *)
Theorem selectedAction_default
    (m : Workbench.Model) (s : Workbench.State) :
  match Workbench.selectedCallId s with
  | Some id =>
      id = "" \/ Workbench.findByCallId (Some m) (Some id) = None
  | None => True
  end ->
  Workbench.failedAction m = None ->
  (forall before a hooks after,
      Workbench.actions m = before ++ a :: hooks :: after ->
      Workbench.title hooks = "After Hooks" ->
      (forall x, In x (tl (before ++ [a])) ->
                 Workbench.title x <> "After Hooks") ->
      Workbench.selectedAction (Some m) s = Some a) /\
  (forall before a,
      Workbench.actions m = before ++ [a] ->
      (forall x, In x (tl (before ++ [a])) ->
                 Workbench.title x <> "After Hooks") ->
      Workbench.selectedAction (Some m) s = Some a).
Proof.
  intros Hid Hfailed.
  assert (Hdefault :
    Workbench.selectedAction (Some m) s =
    if negb (Nat.eqb (List.length (Workbench.actions m)) 0)
    then nth_error (Workbench.actions m)
           (Workbench.afterHooksLoop (Workbench.actions m) 0
              (List.length (Workbench.actions m) - 1))
    else None).
  { unfold Workbench.selectedAction. rewrite Hfailed.
    destruct (Workbench.selectedCallId s) as [id|]; [|reflexivity].
    destruct Hid as [->|Hnone]; [reflexivity|].
    destruct (negb (String.eqb id "")); [rewrite Hnone|]; reflexivity. }
  split.
  - intros before a hooks after Hactions Hhooks Hnone.
    rewrite Hdefault, Hactions.
    destruct before as [|first middle].
    + cbn [app List.length Nat.eqb negb].
      rewrite afterHooksLoop_head.
      rewrite (afterHooksLoop_first [] after hooks 1 _ ltac:(lia)
                 ltac:(intros x []) Hhooks).
      reflexivity.
    + cbn [app List.length Nat.eqb negb].
      rewrite afterHooksLoop_head.
      replace (middle ++ a :: hooks :: after)
        with ((middle ++ [a]) ++ hooks :: after)
        by (rewrite <- app_assoc; reflexivity).
      rewrite (afterHooksLoop_first (middle ++ [a]) after hooks 1 _
                 ltac:(lia) Hnone Hhooks).
      rewrite length_app. cbn [List.length].
      replace (1 + (List.length middle + 1) - 1)%nat
        with (S (List.length middle)) by lia.
      cbn [nth_error]. rewrite <- app_assoc. cbn [app].
      rewrite nth_error_app2 by lia. rewrite Nat.sub_diag. reflexivity.
  - intros before a Hactions Hnone.
    rewrite Hdefault, Hactions.
    destruct before as [|first middle].
    + cbn [app List.length Nat.eqb negb].
      rewrite afterHooksLoop_head. reflexivity.
    + cbn [app List.length Nat.eqb negb].
      rewrite afterHooksLoop_head, afterHooksLoop_none by exact Hnone.
      rewrite length_app. cbn [List.length].
      replace (S (List.length middle + 1) - 1)%nat
        with (S (List.length middle)) by lia.
      cbn [nth_error]. rewrite nth_error_app2 by lia.
      rewrite Nat.sub_diag. reflexivity.
Qed.

Lemma selectedAction_default_witness :
  let goto :=
    {| Workbench.callId := "call@2"; Workbench.title := "page.goto";
       Workbench.stack := None |} in
  let before :=
    {| Workbench.callId := "call@1"; Workbench.title := "Before Hooks";
       Workbench.stack := None |} in
  let hooks :=
    {| Workbench.callId := "call@3"; Workbench.title := "After Hooks";
       Workbench.stack := None |} in
  Workbench.selectedAction
    (Some {| Workbench.actions := [before; goto; hooks];
             Workbench.failedAction := None |})
    (Workbench.initialState None false)
  = Some goto.
Proof.
  intros goto before hooks.
  apply (proj1 (selectedAction_default
                  {| Workbench.actions := [before; goto; hooks];
                     Workbench.failedAction := None |}
                  (Workbench.initialState None false) I eq_refl)
           [before] goto hooks []).
  - reflexivity.
  - reflexivity.
  - intros x [<-|[]]. discriminate.
Defined.

(** X12.  Selecting an action of the list makes it the selected and the
    active action, whatever was selected, highlighted or failed before,
    and clears a revealed error, provided the action has a non-empty call
    id and is the first action with that id.  An action with an empty
    call id cannot be selected this way: the selection is then the one
    obtained with nothing selected. *)
Theorem onActionSelected_selects
    (m : Workbench.Model) (s : Workbench.State) (a : Workbench.Action) :
  (Workbench.callId a <> "" ->
   find (fun x => String.eqb (Workbench.callId x) (Workbench.callId a))
        (Workbench.actions m) = Some a ->
   Workbench.selectedAction (Some m) (Workbench.onActionSelected a s)
   = Some a /\
   Workbench.activeAction (Some m) (Workbench.onActionSelected a s)
   = Some a /\
   Workbench.revealedError (Workbench.onActionSelected a s) = None) /\
  (Workbench.callId a = "" ->
   Workbench.selectedAction (Some m) (Workbench.onActionSelected a s)
   = Workbench.selectedAction (Some m) (Workbench.setSelectedAction None s)).
Proof.
  split.
  - intros Hid Hfind.
    assert (Hsel : Workbench.selectedAction (Some m)
                     (Workbench.onActionSelected a s) = Some a).
    { unfold Workbench.selectedAction, Workbench.onActionSelected.
      cbn [Workbench.selectedCallId Workbench.setHighlightedAction
           Workbench.setSelectedAction option_map].
      apply String.eqb_neq in Hid. rewrite Hid. cbn [negb].
      unfold Workbench.findByCallId. rewrite Hfind. reflexivity. }
    split; [exact Hsel|]. split; [|reflexivity].
    unfold Workbench.activeAction, Workbench.highlightedAction.
    unfold Workbench.onActionSelected at 1.
    cbn [Workbench.highlightedCallId Workbench.setHighlightedAction
         option_map Workbench.findByCallId].
    exact Hsel.
  - intros Hempty.
    unfold Workbench.selectedAction, Workbench.onActionSelected.
    cbn [Workbench.selectedCallId Workbench.setHighlightedAction
         Workbench.setSelectedAction option_map].
    rewrite Hempty. reflexivity.
Qed.

Lemma onActionSelected_selects_witness :
  let goto :=
    {| Workbench.callId := "call@2"; Workbench.title := "page.goto";
       Workbench.stack := None |} in
  let click :=
    {| Workbench.callId := "call@3"; Workbench.title := "locator.click";
       Workbench.stack := None |} in
  Workbench.activeAction
    (Some {| Workbench.actions := [goto; click];
             Workbench.failedAction := Some click |})
    (Workbench.onActionSelected goto (Workbench.initialState None false))
  = Some goto.
Proof.
  intros goto click.
  apply (proj1 (onActionSelected_selects
                  {| Workbench.actions := [goto; click];
                     Workbench.failedAction := Some click |}
                  (Workbench.initialState None false) goto)).
  - discriminate.
  - reflexivity.
Defined.

(** X13.  The tabs of the properties pane.  The Locator tab is always
    first; the Source tab is seventh, or second when [showSourcesFirst]
    is set, the other tabs keeping their order; the Annotations tab is
    last and present exactly when annotations are given.  No tab is lost
    or duplicated by the reordering. *)
Theorem tabs_order
    (counts : Workbench.Counts) (annotations : option (list string))
    (showSourcesFirst : bool) :
  map Workbench.id (Workbench.tabs counts annotations showSourcesFirst)
  = (if showSourcesFirst
     then ["inspector"; "source"; "call"; "log"; "errors"; "console";
           "network"; "attachments"]
     else ["inspector"; "call"; "log"; "errors"; "console"; "network";
           "source"; "attachments"])
    ++ match annotations with
       | Some _ => ["annotations"]
       | None => []
       end.
Proof.
  destruct annotations, showSourcesFirst; reflexivity.
Qed.

(** ** More on the application's window set and waits *)

Section ApplicationExtras.

Import ElectronApplication.

Variable Events : Events.Table.

(** What the window set keeps under any input at all. *)
Lemma dispatch_keeps_windows (i : Input) (this : t) (known : list Page) :
  NoDup (_windows this) /\
  (forall p, In p (_windows this) -> In p known) /\
  (forall p, In p (_windows this) -> In p (_pageCloseOnce this)) ->
  NoDup (_windows (fst (dispatch Events i this))) /\
  (forall p, In p (_windows (fst (dispatch Events i this))) ->
             In p (known ++ announced [i])) /\
  (forall p, In p (_windows (fst (dispatch Events i this))) ->
             In p (_pageCloseOnce (fst (dispatch Events i this)))).
Proof.
  intros (Hnd & Hknown & Hpending).
  destruct i as [page|page| |event|dt]; cbn [announced];
    [| | rewrite app_nil_r; cbn [dispatch emit fst]; auto ..].
  - destruct (dispatch_ContextPage Events page this) as (Hw & Hp & _).
    rewrite Hw, Hp. split; [apply add_NoDup, Hnd|]. split.
    + intros p Hin. apply add_In in Hin. apply in_app_iff.
      destruct Hin as [Hin| ->]; [left; auto|right; left; reflexivity].
    + intros p Hin. apply add_In in Hin. apply in_app_iff.
      destruct Hin as [Hin| ->]; [left; auto|right; left; reflexivity].
  - destruct (dispatch_PageClose Events page this) as (Hw & Hp & _).
    rewrite Hw, Hp, app_nil_r.
    destruct (PageSet.has page (_pageCloseOnce this)) eqn:E.
    + split; [apply NoDup_filter, Hnd|]. split.
      * intros p Hin. apply delete_In in Hin. apply Hknown, Hin.
      * intros p Hin. apply delete_In in Hin as [Hin Hne].
        apply filter_In. split; [auto|].
        apply negb_true_iff, String.eqb_neq. congruence.
    + split; [exact Hnd|]. split; [exact Hknown|].
      intros p Hin. apply filter_In. split; [auto|].
      apply negb_true_iff, String.eqb_neq. intros <-.
      apply has_false_iff in E. exact (E (Hpending _ Hin)).
Qed.

Lemma announced_app (a b : list Input) :
  announced (a ++ b) = announced a ++ announced b.
Proof.
  induction a as [|i a IH]; [reflexivity|].
  destruct i; cbn [app announced]; rewrite IH; reflexivity.
Qed.

Lemma dispatchAll_keeps_windows (inputs : list Input) :
  forall (this : t) (known : list Page),
    NoDup (_windows this) /\
    (forall p, In p (_windows this) -> In p known) /\
    (forall p, In p (_windows this) -> In p (_pageCloseOnce this)) ->
    NoDup (_windows (fst (fst (dispatchAll Events inputs this)))) /\
    (forall p, In p (_windows (fst (fst (dispatchAll Events inputs this)))) ->
               In p (known ++ announced inputs)) /\
    (forall p, In p (_windows (fst (fst (dispatchAll Events inputs this)))) ->
               In p (_pageCloseOnce
                       (fst (fst (dispatchAll Events inputs this))))).
Proof.
  induction inputs as [|i rest IH]; intros this known H.
  - cbn [dispatchAll fst announced]. rewrite app_nil_r. exact H.
  - rewrite dispatchAll_cons. cbn [fst].
    pose proof (IH _ _ (dispatch_keeps_windows i this known H)) as H'.
    change (i :: rest) with ([i] ++ rest).
    rewrite announced_app, app_assoc. exact H'.
Qed.

Lemma constructor_keeps_windows (guid : Guid)
    (platform : TimeoutSettings.Platform) (torn : bool)
    (context : BrowserContext) :
  let this := fst (constructor Events guid platform torn context) in
  NoDup (_windows this) /\
  (forall p, In p (_windows this) -> In p (_pages context)) /\
  (forall p, In p (_windows this) -> In p (_pageCloseOnce this)).
Proof.
  intros this.
  destruct (tracks_constructor Events guid platform torn context)
    as [Hpending Hwin].
  fold this in Hpending, Hwin. split; [|split].
  - rewrite Hwin. apply NoDup_filter, of_list_NoDup.
  - intros p Hin. rewrite Hwin in Hin. apply filter_In in Hin as [Hin _].
    apply of_list_In, Hin.
  - exact Hpending.
Qed.

(** A page that is not in the set and is not announced stays out. *)
Lemma dispatchAll_absent (inputs : list Input) :
  forall (this : t) (page : Page),
    ~ In page (_windows this) ->
    ~ In page (announced inputs) ->
    ~ In page (_windows (fst (fst (dispatchAll Events inputs this)))).
Proof.
  induction inputs as [|i rest IH]; intros this page Hout Hnot.
  - exact Hout.
  - rewrite dispatchAll_cons. cbn [fst]. apply IH.
    + destruct i as [q|q| |event|dt]; try exact Hout.
      * rewrite (proj1 (dispatch_ContextPage Events q this)), add_In.
        intros [Hin| ->]; [exact (Hout Hin)|].
        apply Hnot. left. reflexivity.
      * rewrite (proj1 (dispatch_PageClose Events q this)).
        destruct (PageSet.has q (_pageCloseOnce this)); [|exact Hout].
        rewrite delete_In. tauto.
    + intros Hin. apply Hnot.
      destruct i; cbn [announced]; try exact Hin. right. exact Hin.
Qed.

Lemma dispatch_untouched (i : Input) (this : t) :
  ElectronInputs.touchesWindows i = false ->
  fst (dispatch Events i this) = this.
Proof.
  destruct i; try discriminate; reflexivity.
Qed.

Lemma dispatchAll_touching_only (inputs : list Input) :
  forall this : t,
    fst (fst (dispatchAll Events inputs this)) =
    fst (fst (dispatchAll Events
                (filter ElectronInputs.touchesWindows inputs) this)).
Proof.
  induction inputs as [|i rest IH]; intros this; [reflexivity|].
  cbn [filter]. destruct (ElectronInputs.touchesWindows i) eqn:E.
  - rewrite !dispatchAll_cons. cbn [fst]. apply IH.
  - rewrite dispatchAll_cons. cbn [fst].
    rewrite (dispatch_untouched i this E). apply IH.
Qed.

Lemma waitForEvent_waiter_resolve (this : t) (event : string)
    (optionsOrPredicate : option WaitForEventOptions) :
  Waiter.resolveBindings
    (waitForEvent_waiter Events this event optionsOrPredicate)
  = [{| Waiter.resolve_emitter := _guid this;
        Waiter.resolve_event := event;
        Waiter.resolve_predicate :=
          match optionsOrPredicate with
          | Some (IsFunction f) => Some f
          | Some (IsObject p _) => p
          | None => None
          end |}].
Proof.
  unfold waitForEvent_waiter.
  set (timeout := TimeoutSettings.timeout _ _).
  unfold Waiter.rejectOnTimeout.
  destruct (timeout =? 0);
    destruct (negb (String.eqb event
                      (Events.ElectronApplication_Close Events)));
    destruct optionsOrPredicate as [[f|p t0]|]; reflexivity.
Qed.

Lemma dispatchAll_observed_page (pre post : list Input) (page : Page)
    (this : t) :
  snd (dispatchAll Events (pre ++ ContextPage page :: post) this) =
  snd (dispatchAll Events pre this) ++
  Waiter.Emit (_guid this) (Events.ElectronApplication_Window Events)
              (PayloadPage page) ::
  snd (dispatchAll Events post
         (fst (dispatch Events (ContextPage page)
                 (fst (fst (dispatchAll Events pre this)))))).
Proof.
  rewrite dispatchAll_observed_at. reflexivity.
Qed.

(** A pending [waitForEvent] whose resolve binding matches the next
    emission is fulfilled with its payload. *)
Lemma waitForEvent_resolves (this : t) (event : string)
    (optionsOrPredicate : option WaitForEventOptions)
    (inputs : list Input) (before after : list Waiter.Input)
    (payload : Payload) :
  snd (dispatchAll Events inputs this) =
    before ++ Waiter.Emit (_guid this) event payload :: after ->
  Waiter.status
    (Waiter.run (waitForEvent_waiter Events this event optionsOrPredicate)
       before) = Waiter.Outstanding ->
  ElectronInputs.accepts optionsOrPredicate payload = true ->
  promise (waitForEvent Events this event optionsOrPredicate inputs)
  = Fulfilled payload /\
  option_map Waiter.disposeCalls
    (waiter (waitForEvent Events this event optionsOrPredicate inputs))
  = Some 1%nat.
Proof.
  intros Hseen Hout Hacc.
  rewrite waitForEvent_unfold. cbv zeta. rewrite Hseen.
  set (w0 := waitForEvent_waiter Events this event optionsOrPredicate) in *.
  assert (Hf : Waiter.fires (Waiter.run w0 before)
                 (Waiter.Emit (_guid this) event payload)
               = Some (Waiter.Resolved payload)).
  { rewrite fires_emit_run by exact Hout.
    unfold Waiter.fires, w0. rewrite waitForEvent_waiter_resolve.
    unfold Waiter.resolveMatches.
    cbn [existsb Waiter.resolve_emitter Waiter.resolve_event
         Waiter.resolve_predicate].
    rewrite !String.eqb_refl. cbn [andb orb].
    unfold ElectronInputs.accepts in Hacc.
    destruct optionsOrPredicate as [[f|[f|] t0]|]; cbn [orb];
      try rewrite Hacc; reflexivity. }
  destruct (run_fires w0 before after _ _ Hout Hf)
    as (_ & _ & Ho & _ & _ & _ & Hcalls).
  rewrite Ho. cbn [promise waiter _wrapApiCall option_map]. split;
    [reflexivity|].
  destruct (dispose_torn_down
              (Waiter.run w0 (before ++
                 Waiter.Emit (_guid this) event payload :: after)))
    as (_ & _ & Hd & _).
  rewrite Hd, Hcalls.
  destruct (waitForEvent_waiter_bindings Events this event optionsOrPredicate)
    as (_ & Hc & _).
  fold w0 in Hc. rewrite Hc. reflexivity.
Qed.

End ApplicationExtras.

(** X14.  Whatever the context and the pages send, and in whatever order,
    [windows()] never lists a page twice, lists only pages that were in
    the context at construction or announced since, and every page it
    lists still carries the close handler that will remove it. *)
Theorem windows_never_duplicated
    (Events : Events.Table) (guid : Guid) (platform : TimeoutSettings.Platform)
    (torn : bool) (context : ElectronApplication.BrowserContext)
    (inputs : list ElectronApplication.Input) :
  let this :=
    fst (fst (ElectronApplication.dispatchAll Events inputs
                (fst (ElectronApplication.constructor Events guid platform
                        torn context)))) in
  NoDup (ElectronApplication.windows this) /\
  (forall page,
      In page (ElectronApplication.windows this) ->
      In page (ElectronApplication._pages context ++
               ElectronApplication.announced inputs)) /\
  (forall page,
      In page (ElectronApplication.windows this) ->
      In page (ElectronApplication._pageCloseOnce this)).
Proof.
  intros this.
  exact (dispatchAll_keeps_windows Events inputs _ _
           (constructor_keeps_windows Events guid platform torn context)).
Qed.

(** X15.  Once a page has emitted its close event it is not a window any
    more, whatever happened before, and it stays out of [windows()] for
    as long as the context does not announce it again. *)
Theorem closed_page_is_not_a_window
    (Events : Events.Table) (guid : Guid) (platform : TimeoutSettings.Platform)
    (torn : bool) (context : ElectronApplication.BrowserContext)
    (history later : list ElectronApplication.Input) (page : Page) :
  ~ In page (ElectronApplication.announced later) ->
  ~ In page
      (ElectronApplication.windows
         (fst (fst (ElectronApplication.dispatchAll Events
                      (history ++ ElectronApplication.PageClose page :: later)
                      (fst (ElectronApplication.constructor Events guid
                              platform torn context)))))).
Proof.
  intros Hnot.
  rewrite dispatchAll_app. cbn [fst].
  rewrite dispatchAll_cons. cbn [fst].
  destruct (dispatchAll_keeps_windows Events history _ _
              (constructor_keeps_windows Events guid platform torn context))
    as (_ & _ & Hpending).
  set (this := fst (fst (ElectronApplication.dispatchAll Events history _)))
    in *.
  apply dispatchAll_absent; [|exact Hnot].
  rewrite (proj1 (dispatch_PageClose Events page this)).
  destruct (PageSet.has page (ElectronApplication._pageCloseOnce this)) eqn:E.
  - rewrite delete_In. tauto.
  - intros Hin. apply has_false_iff in E. exact (E (Hpending _ Hin)).
Qed.

Lemma closed_page_is_not_a_window_witness :
  ~ In "page@1"
      (ElectronApplication.windows
         (fst (fst (ElectronApplication.dispatchAll Samples.events
                      ([ElectronApplication.ContextPage "page@1"] ++
                       ElectronApplication.PageClose "page@1" ::
                       [ElectronApplication.ContextPage "page@3"])
                      (fst (ElectronApplication.constructor Samples.events
                              "electron-app@1" Samples.platform false
                              {| ElectronApplication.context_guid :=
                                   "context@1";
                                 ElectronApplication._pages :=
                                   ["page@1"; "page@2"] |})))))).
Proof.
  apply (closed_page_is_not_a_window Samples.events "electron-app@1"
           Samples.platform false
           {| ElectronApplication.context_guid := "context@1";
              ElectronApplication._pages := ["page@1"; "page@2"] |}
           [ElectronApplication.ContextPage "page@1"]
           [ElectronApplication.ContextPage "page@3"] "page@1").
  intros [H|[]]. discriminate.
Defined.

(** X16.  The application's own close event, console messages and the
    passing of time change nothing in the application: its state, and so
    [windows()], after any inputs is the state after the page
    announcements and page closes among them alone.  In particular the
    close of the application does not empty the window set. *)
Theorem only_page_events_change_the_application
    (Events : Events.Table) (this : ElectronApplication.t)
    (inputs : list ElectronApplication.Input) :
  fst (fst (ElectronApplication.dispatchAll Events inputs this)) =
  fst (fst (ElectronApplication.dispatchAll Events
              (filter ElectronInputs.touchesWindows inputs) this)) /\
  (forallb (fun i => negb (ElectronInputs.touchesWindows i)) inputs = true ->
   fst (fst (ElectronApplication.dispatchAll Events inputs this)) = this).
Proof.
  split; [apply dispatchAll_touching_only|].
  intros Hnone. rewrite dispatchAll_touching_only.
  replace (filter ElectronInputs.touchesWindows inputs) with
    (@nil ElectronApplication.Input); [reflexivity|].
  induction inputs as [|i rest IH]; [reflexivity|].
  cbn [forallb] in Hnone. apply andb_true_iff in Hnone as [Hi Hrest].
  cbn [filter]. apply negb_true_iff in Hi. rewrite Hi. exact (IH Hrest).
Qed.

Lemma only_page_events_change_the_application_witness :
  fst (fst (ElectronApplication.dispatchAll Samples.events
              [ElectronApplication.ChannelClose;
               ElectronApplication.ChannelConsole "bye";
               ElectronApplication.Elapse 5]
              Samples.twoWindows))
  = Samples.twoWindows.
Proof.
  apply (proj2 (only_page_events_change_the_application Samples.events
                  Samples.twoWindows
                  [ElectronApplication.ChannelClose;
                   ElectronApplication.ChannelConsole "bye";
                   ElectronApplication.Elapse 5])).
  reflexivity.
Defined.

(** X17.  Waiting for the close event itself: [waitForEvent] installs no
    reject binding then, and when the application closes while the call
    is pending the call is fulfilled (with no payload) instead of failing
    with a [TargetClosedError], provided the predicate, if any, accepts
    that; the waiter is disposed once. *)
Theorem waitForEvent_close_resolves_on_close
    (Events : Events.Table) (this : ElectronApplication.t)
    (optionsOrPredicate : option ElectronApplication.WaitForEventOptions)
    (pre post : list ElectronApplication.Input) :
  ElectronApplication.promise
    (ElectronApplication.waitForEvent Events this
       (Events.ElectronApplication_Close Events) optionsOrPredicate pre)
  = Pending ->
  ElectronInputs.accepts optionsOrPredicate PayloadNone = true ->
  Waiter.rejectBindings
    (ElectronApplication.waitForEvent_waiter Events this
       (Events.ElectronApplication_Close Events) optionsOrPredicate) = [] /\
  ElectronApplication.promise
    (ElectronApplication.waitForEvent Events this
       (Events.ElectronApplication_Close Events) optionsOrPredicate
       (pre ++ ElectronApplication.ChannelClose :: post))
  = Fulfilled PayloadNone /\
  option_map Waiter.disposeCalls
    (ElectronApplication.waiter
       (ElectronApplication.waitForEvent Events this
          (Events.ElectronApplication_Close Events) optionsOrPredicate
          (pre ++ ElectronApplication.ChannelClose :: post)))
  = Some 1%nat.
Proof.
  intros Hpending Hacc. split.
  - destruct (waitForEvent_waiter_bindings Events this
                (Events.ElectronApplication_Close Events) optionsOrPredicate)
      as (_ & _ & _ & _ & Hrej).
    rewrite String.eqb_refl in Hrej. exact Hrej.
  - apply (waitForEvent_resolves Events this _ optionsOrPredicate _
             (snd (ElectronApplication.dispatchAll Events pre this))
             (snd (ElectronApplication.dispatchAll Events post
                     (fst (fst (ElectronApplication.dispatchAll Events pre
                                  this)))))).
    + apply dispatchAll_observed_close.
    + apply waitForEvent_pending, Hpending.
    + exact Hacc.
Qed.

Lemma waitForEvent_close_resolves_on_close_witness :
  ElectronApplication.promise
    (ElectronApplication.waitForEvent Samples.events Samples.twoWindows
       "close" None
       ([ElectronApplication.Elapse 10] ++
        ElectronApplication.ChannelClose :: []))
  = Fulfilled PayloadNone.
Proof.
  apply (proj2 (waitForEvent_close_resolves_on_close Samples.events
                  Samples.twoWindows None [ElectronApplication.Elapse 10] []
                  eq_refl eq_refl)).
Defined.

(** X18.  [firstWindow] on an application without windows waits for the
    next one: with the window event named window, as [firstWindow] spells
    it, the call that is pending when the context announces a page is
    fulfilled with that page, which is then also the first window. *)
Theorem firstWindow_resolves_with_next_window
    (Events : Events.Table) (this : ElectronApplication.t)
    (options : option TimeoutSettings.Options)
    (pre post : list ElectronApplication.Input) (page : Page) :
  Events.ElectronApplication_Window Events = "window" ->
  ElectronApplication._windows this = [] ->
  ElectronApplication.promise
    (ElectronApplication.firstWindow Events this options pre) = Pending ->
  ElectronApplication.promise
    (ElectronApplication.firstWindow Events this options
       (pre ++ ElectronApplication.ContextPage page :: post))
  = Fulfilled (PayloadPage page).
Proof.
  intros Hname Hempty.
  unfold ElectronApplication.firstWindow. rewrite Hempty.
  cbn [PageSet.size List.length Nat.eqb negb].
  intros Hpending.
  apply (waitForEvent_resolves Events this "window" _ _
           (snd (ElectronApplication.dispatchAll Events pre this))
           (snd (ElectronApplication.dispatchAll Events post
                   (fst (ElectronApplication.dispatch Events
                           (ElectronApplication.ContextPage page)
                           (fst (fst (ElectronApplication.dispatchAll Events
                                        pre this)))))))).
  - rewrite dispatchAll_observed_page, Hname. reflexivity.
  - apply waitForEvent_pending, Hpending.
  - destruct options; reflexivity.
Qed.

Lemma firstWindow_resolves_with_next_window_witness :
  ElectronApplication.promise
    (ElectronApplication.firstWindow Samples.events Samples.noWindows None
       ([ElectronApplication.Elapse 10] ++
        ElectronApplication.ContextPage "page@7" ::
        [ElectronApplication.ChannelClose]))
  = Fulfilled (PayloadPage "page@7").
Proof.
  apply (firstWindow_resolves_with_next_window Samples.events
           Samples.noWindows None [ElectronApplication.Elapse 10]
           [ElectronApplication.ChannelClose] "page@7");
    reflexivity.
Defined.

(** X20.  Revealing an error in the source.  For an error without an
    action the Source tab is selected, inspecting is off and the stack
    shown is the error's.  For an error with an action the action becomes
    the selected one, no error stays revealed, and the stack shown is the
    action's, unless an action is highlighted, whose stack is then
    shown. *)
Theorem revealInSource_shows_stack
    (model : option Workbench.Model) (s : Workbench.State)
    (error : Workbench.ErrorDescription) :
  Workbench.selectedPropertiesTab (Workbench.revealInSource error s)
  = "source" /\
  Workbench.isInspecting (Workbench.revealInSource error s) = false /\
  (Workbench.error_action error = None ->
   Workbench.revealedStack model (Workbench.revealInSource error s)
   = Workbench.error_stack error) /\
  (forall m a,
      model = Some m ->
      Workbench.error_action error = Some a ->
      Workbench.callId a <> "" ->
      find (fun x => String.eqb (Workbench.callId x) (Workbench.callId a))
           (Workbench.actions m) = Some a ->
      Workbench.revealedError (Workbench.revealInSource error s) = None /\
      Workbench.selectedAction model (Workbench.revealInSource error s)
      = Some a /\
      Workbench.revealedStack model (Workbench.revealInSource error s)
      = match Workbench.highlightedAction model s with
        | Some highlighted => Workbench.stack highlighted
        | None => Workbench.stack a
        end).
Proof.
  unfold Workbench.revealInSource.
  split; [reflexivity|]. split; [reflexivity|]. split.
  - intros Hnone. rewrite Hnone. reflexivity.
  - intros m a -> Ha Hid Hfind. rewrite Ha.
    assert (Hsel : Workbench.selectedAction (Some m)
                     (Workbench.selectPropertiesTab "source"
                        (Workbench.setSelectedAction (Some a) s)) = Some a).
    { unfold Workbench.selectedAction.
      cbn [Workbench.selectedCallId Workbench.selectPropertiesTab
           Workbench.setSelectedPropertiesTab Workbench.setIsInspectingState
           Workbench.setSelectedAction option_map String.eqb Ascii.eqb
           Bool.eqb negb].
      apply String.eqb_neq in Hid. rewrite Hid. cbn [negb].
      unfold Workbench.findByCallId. rewrite Hfind. reflexivity. }
    split; [reflexivity|]. split; [exact Hsel|].
    unfold Workbench.revealedStack, Workbench.activeAction.
    rewrite Hsel.
    change (Workbench.highlightedAction (Some m)
              (Workbench.selectPropertiesTab "source"
                 (Workbench.setSelectedAction (Some a) s)))
      with (Workbench.highlightedAction (Some m) s).
    destruct (Workbench.highlightedAction (Some m) s); reflexivity.
Qed.

Lemma revealInSource_shows_stack_witness :
  Workbench.revealedStack None
    (Workbench.revealInSource
       {| Workbench.error_action := None;
          Workbench.error_stack := Some ["tests/app.spec.ts:12"];
          Workbench.error_message := "expect failed" |}
       (Workbench.initialState None false))
  = Some ["tests/app.spec.ts:12"].
Proof.
  apply (proj1 (proj2 (proj2 (revealInSource_shows_stack None
                                (Workbench.initialState None false)
                                {| Workbench.error_action := None;
                                   Workbench.error_stack :=
                                     Some ["tests/app.spec.ts:12"];
                                   Workbench.error_message :=
                                     "expect failed" |})))).
  reflexivity.
Defined.
